(** * Stripe webhook receiver (main.py): admission control and background
      processing, as a shallow embedding.

    The embedding follows [main.py] function by function:
    - [_extract_email_from_event_object], [process_event_record] and
      [payment_callback] are written in a small state-and-exception monad
      [M] whose state is the process-wide state the Python module owns
      (the TinyDB table [db], the queue of background tasks, and the
      sequence of observable effects: log lines, body reads, store
      operations, responses);
    - Python's [try ... except] is the combinator [try_except];
    - the calls into the [stripe] package are oracles of the section
      ([construct_event], [Event_retrieve], [Customer_retrieve]) that may
      return a value or raise any exception;
    - the coroutine [payment_callback] has one suspension point,
      [await request.body()]; the event loop of the last part interleaves
      requests at that point only. *)

From Stdlib Require Import List String Ascii NArith ZArith Bool Lia Permutation.
From Stdlib.Strings Require Import Byte.
Import ListNotations.
Set Warnings "-register-all".

Open Scope string_scope.
Open Scope list_scope.

(* ------------------------------------------------------------------ *)
(** ** Python values, exceptions *)

(** The JSON-like values held by Stripe objects ([dict], [list], [str],
    [int], [bool], [None]). *)
Inductive pyval : Type :=
| PNone
| PBool (b : bool)
| PInt (z : Z)
| PStr (s : string)
| PList (l : list pyval)
| PDict (d : list (string * pyval)).

(** The exception classes the module distinguishes.  All of them derive
    from Python's [Exception], which is what the library calls of the
    module raise and what [except Exception] catches. *)
Inductive exn : Type :=
| TypeError
| SignatureVerificationError
| HTTPException (status_code : Z) (detail : string)
| UnicodeDecodeError
| AttributeError
| KeyError
| OtherException (name : string).

Inductive outcome (A : Type) : Type :=
| Ret (a : A)
| Raise (e : exn).
Arguments Ret {A} a.
Arguments Raise {A} e.

(** Python truthiness ([bool(v)]). *)
Definition truthy (v : pyval) : bool :=
  match v with
  | PNone => false
  | PBool b => b
  | PInt z => negb (Z.eqb z 0)
  | PStr s => negb (String.eqb s "")
  | PList l => match l with [] => false | _ => true end
  | PDict d => match d with [] => false | _ => true end
  end.

(** Truthiness of a [str | None] variable. *)
Definition truthy_str (o : option string) : bool :=
  match o with
  | None => false
  | Some s => negb (String.eqb s "")
  end.

Fixpoint assoc {V : Type} (k : string) (d : list (string * V)) : option V :=
  match d with
  | [] => None
  | (k', v) :: d' => if String.eqb k k' then Some v else assoc k d'
  end.

(** [o.get(k, default)]: only mappings have [get]. *)
Definition py_get_default (o : pyval) (k : string) (default : pyval) : outcome pyval :=
  match o with
  | PDict d => match assoc k d with Some v => Ret v | None => Ret default end
  | _ => Raise AttributeError
  end.

Definition py_get (o : pyval) (k : string) : outcome pyval :=
  py_get_default o k PNone.

(** [o[k]]. *)
Definition py_getitem (o : pyval) (k : string) : outcome pyval :=
  match o with
  | PDict d => match assoc k d with Some v => Ret v | None => Raise KeyError end
  | _ => Raise TypeError
  end.

(* ------------------------------------------------------------------ *)
(** ** [bytes.decode("utf-8")]

    The strict decoder: shortest form only, no surrogates, nothing above
    U+10FFFF.  A Python [str] is its sequence of code points. *)

Definition in_range (lo hi b : N) : bool := (N.leb lo b) && (N.leb b hi).

Definition is_continuation (b : N) : bool := in_range 0x80 0xBF b.

Definition low6 (b : N) : N := N.land b 0x3F.

Definition cp2 (c0 c1 : N) : N :=
  N.lor (N.shiftl (N.land c0 0x1F) 6) (low6 c1).

Definition cp3 (c0 c1 c2 : N) : N :=
  N.lor (N.shiftl (N.land c0 0x0F) 12) (N.lor (N.shiftl (low6 c1) 6) (low6 c2)).

Definition cp4 (c0 c1 c2 c3 : N) : N :=
  N.lor (N.shiftl (N.land c0 0x07) 18)
        (N.lor (N.shiftl (low6 c1) 12) (N.lor (N.shiftl (low6 c2) 6) (low6 c3))).

(** Bounds on the second byte of a three- or four-byte sequence. *)
Definition second_lo (c0 : N) : N :=
  if N.eqb c0 0xE0 then 0xA0 else if N.eqb c0 0xF0 then 0x90 else 0x80.

Definition second_hi (c0 : N) : N :=
  if N.eqb c0 0xED then 0x9F else if N.eqb c0 0xF4 then 0x8F else 0xBF.

Fixpoint utf8_decode (bs : list byte) : option (list N) :=
  match bs with
  | [] => Some []
  | b0 :: r0 =>
    let c0 := Byte.to_N b0 in
    if N.ltb c0 0x80 then option_map (cons c0) (utf8_decode r0)
    else if in_range 0xC2 0xDF c0 then
      match r0 with
      | b1 :: r1 =>
        let c1 := Byte.to_N b1 in
        if is_continuation c1
        then option_map (cons (cp2 c0 c1)) (utf8_decode r1)
        else None
      | _ => None
      end
    else if in_range 0xE0 0xEF c0 then
      match r0 with
      | b1 :: b2 :: r2 =>
        let c1 := Byte.to_N b1 in
        let c2 := Byte.to_N b2 in
        if in_range (second_lo c0) (second_hi c0) c1 && is_continuation c2
        then option_map (cons (cp3 c0 c1 c2)) (utf8_decode r2)
        else None
      | _ => None
      end
    else if in_range 0xF0 0xF4 c0 then
      match r0 with
      | b1 :: b2 :: b3 :: r3 =>
        let c1 := Byte.to_N b1 in
        let c2 := Byte.to_N b2 in
        let c3 := Byte.to_N b3 in
        if in_range (second_lo c0) (second_hi c0) c1
           && is_continuation c2 && is_continuation c3
        then option_map (cons (cp4 c0 c1 c2 c3)) (utf8_decode r3)
        else None
      | _ => None
      end
    else None
  end.

(** [payload.decode("utf-8")] *)
Definition decode_utf8 (payload : list byte) : outcome (list N) :=
  match utf8_decode payload with
  | Some text => Ret text
  | None => Raise UnicodeDecodeError
  end.

(* ------------------------------------------------------------------ *)
(** ** Data model *)

(** The document [{"event_id": ..., "type": ...}] kept in the TinyDB
    table. *)
Record DedupRecord : Type := { event_id : string; type : string }.

(** [background_tasks.add_task(process_event_record, event_id, event_type)] *)
Record ProcessingTask : Type :=
  { task_event_id : string; task_event_type : string }.

(** What [payment_callback] reads of the object returned by
    [stripe.Webhook.construct_event]: [event.get("id")] and
    [event.get("type")], [None] when the key is missing.  Stripe's ids and
    types are strings (as the annotations of [process_event_record] say). *)
Record Event : Type := { ev_id : option string; ev_type : option string }.

(** A request: its body, and its headers with their names in lower case,
    as the ASGI server hands them over. *)
Record Request : Type :=
  { body : list byte; headers : list (string * string) }.

(** [request.headers.get(name)] *)
Definition headers_get (request : Request) (name : string) : option string :=
  assoc name (headers request).

(** The payload handed to [construct_event]: the raw [bytes], or the [str]
    obtained by decoding them. *)
Inductive payload_arg : Type :=
| PBytes (b : list byte)
| PText (text : list N).

Inductive json : Type :=
| JBool (b : bool)
| JStr (s : string)
| JObj (fields : list (string * json)).

Record JSONResponse : Type := { status_code : Z; content : json }.

(** FastAPI's exception handling: an [HTTPException] becomes the response
    [{"detail": detail}] with its status; anything else escaping the
    endpoint is the server's plain 500. *)
Definition exception_response (e : exn) : JSONResponse :=
  match e with
  | HTTPException sc d => {| status_code := sc; content := JObj [("detail", JStr d)] |}
  | _ => {| status_code := 500; content := JStr "Internal Server Error" |}
  end.

Inductive level : Type := INFO | WARNING | ERROR.

Inductive log_arg : Type :=
| AVal (v : pyval)
| AExn (e : exn).

(** The observable effects of the module, in program order. *)
Inductive effect : Type :=
| ELog (lvl : level) (msg : string) (args : list log_arg)
| EReadBody
| EContains (found : bool)
| EInsert (doc : DedupRecord)
| EAddTask (t : ProcessingTask)
| ERespond (r : JSONResponse).

(** The state of the process: the TinyDB table, the background tasks
    scheduled so far, and the effects performed so far. *)
Record server : Type :=
  { db : list DedupRecord; tasks : list ProcessingTask; trace : list effect }.

(* ------------------------------------------------------------------ *)
(** ** The monad: state plus Python exceptions *)

Definition M (A : Type) : Type := server -> outcome A * server.

Definition ret {A : Type} (a : A) : M A := fun s => (Ret a, s).

Definition raise {A : Type} (e : exn) : M A := fun s => (Raise e, s).

Definition bind {A B : Type} (m : M A) (k : A -> M B) : M B :=
  fun s =>
    match m s with
    | (Ret a, s') => k a s'
    | (Raise e, s') => (Raise e, s')
    end.

Notation "x <- m ;; k" := (bind m (fun x => k))
  (at level 61, m at next level, right associativity).
Notation "m ;; k" := (bind m (fun _ => k))
  (at level 61, right associativity).

Definition lift {A : Type} (o : outcome A) : M A := fun s => (o, s).

(** [try: body  except ...: handler].  [handler e] is [None] when no
    [except] clause matches [e]; an exception raised by a handler is not
    caught by the clauses of the same [try]. *)
Definition try_except {A : Type} (body : M A) (handler : exn -> option (M A)) : M A :=
  fun s =>
    match body s with
    | (Ret a, s') => (Ret a, s')
    | (Raise e, s') =>
      match handler e with
      | Some h => h s'
      | None => (Raise e, s')
      end
    end.

Definition emit (e : effect) : M unit :=
  fun s => (Ret tt, {| db := db s; tasks := tasks s; trace := trace s ++ [e] |}).

Definition logger_info (msg : string) (args : list log_arg) : M unit :=
  emit (ELog INFO msg args).

Definition logger_warning (msg : string) (args : list log_arg) : M unit :=
  emit (ELog WARNING msg args).

Definition logger_error (msg : string) (args : list log_arg) : M unit :=
  emit (ELog ERROR msg args).

(** [logger.exception(msg, *args)] inside an [except] clause: level ERROR,
    with the exception being handled attached. *)
Definition logger_exception (msg : string) (args : list log_arg) (e : exn) : M unit :=
  emit (ELog ERROR msg (args ++ [AExn e])).

(** [Query().event_id == v] *)
Definition Query_event_id_eq (v : string) (doc : DedupRecord) : bool :=
  String.eqb (event_id doc) v.

(** [db.contains(cond)]: some document of the table satisfies [cond]. *)
Definition db_contains (cond : DedupRecord -> bool) : M bool :=
  fun s =>
    let found := existsb cond (db s) in
    (Ret found,
     {| db := db s; tasks := tasks s; trace := trace s ++ [EContains found] |}).

(** [db.insert(doc)]: the document is appended to the table. *)
Definition db_insert (doc : DedupRecord) : M unit :=
  fun s =>
    (Ret tt,
     {| db := db s ++ [doc]; tasks := tasks s; trace := trace s ++ [EInsert doc] |}).

(** [background_tasks.add_task(process_event_record, event_id, event_type)] *)
Definition add_task (t : ProcessingTask) : M unit :=
  fun s =>
    (Ret tt,
     {| db := db s; tasks := tasks s ++ [t]; trace := trace s ++ [EAddTask t] |}).

(** [await request.body()] *)
Definition request_body (request : Request) : M (list byte) :=
  emit EReadBody ;; ret (body request).

Definition astr (s : string) : log_arg := AVal (PStr s).

(** The state [s] after the effects [es], none of which touches the store
    or the queue. *)
Definition after (s : server) (es : list effect) : server :=
  {| db := db s; tasks := tasks s; trace := trace s ++ es |}.

(* ------------------------------------------------------------------ *)
(** ** The module's functions *)

Section Webhook.

(** [WEBHOOK_SECRET = os.getenv("WEBHOOK_SECRET")] *)
Variable WEBHOOK_SECRET : option string.

(** [stripe.Webhook.construct_event(payload=, sig_header=, secret=)]:
    Stripe's signature check, a black box that returns the event or
    raises. *)
Variable construct_event :
  payload_arg -> option string -> option string -> outcome Event.

(** [stripe.Event.retrieve(event_id)] and [stripe.Customer.retrieve(id)]:
    remote calls that return an object or raise. *)
Variable Event_retrieve : string -> outcome pyval.
Variable Customer_retrieve : pyval -> outcome pyval.

(** main.py, lines 39-50. *)
Definition _extract_email_from_event_object (obj : pyval) : M pyval :=
  try_except
    (customer_email <- lift (py_get obj "customer_email") ;;
     email <-
       (if truthy customer_email then ret customer_email
        else
          customer_details <- lift (py_get obj "customer_details") ;;
          lift (py_get (if truthy customer_details then customer_details
                        else PDict [])
                       "email")) ;;
     fallback <-
       (if negb (truthy email)
        then customer <- lift (py_get obj "customer") ;; ret (truthy customer)
        else ret false) ;;
     if fallback then
       customer <- lift (py_getitem obj "customer") ;;
       cust <- lift (Customer_retrieve customer) ;;
       lift (py_get cust "email")
     else ret email)
    (fun _ => Some (ret PNone)).

(** main.py, lines 65-77: the body of the second [try] of
    [process_event_record], the dispatch on [event_type]. *)
Definition dispatch_event_type (event_type : string) (obj : pyval) : M unit :=
  if String.eqb event_type "checkout.session.completed" then
    extracted <- _extract_email_from_event_object obj ;;
    let email := if truthy extracted then extracted else PStr "unknown" in
    session <- lift (py_get obj "id") ;;
    logger_info "✅ Checkout completed by %s | session=%s"
                [AVal email; AVal session]
  else if String.eqb event_type "payment_intent.succeeded" then
    amount_received <- lift (py_get obj "amount_received") ;;
    amount <-
      (if truthy amount_received then ret amount_received
       else lift (py_get obj "amount")) ;;
    currency <- lift (py_get obj "currency") ;;
    intent <- lift (py_get obj "id") ;;
    logger_info "💸 Payment succeeded: %s %s | intent=%s"
                [AVal amount; AVal currency; AVal intent]
  else
    logger_info "ℹ️ Unhandled event type: %s" [astr event_type].

(** main.py, lines 56-57: the body of the first [try]. *)
Definition fetch_event_object (event_id : string) : outcome pyval :=
  match Event_retrieve event_id with
  | Ret ev =>
    match py_get_default ev "data" (PDict []) with
    | Ret data => py_get_default data "object" (PDict [])
    | Raise e => Raise e
    end
  | Raise e => Raise e
  end.

(** main.py, lines 53-80.  The first [try] either binds [obj] or logs and
    returns; [None] below is that early [return]. *)
Definition process_event_record (event_id event_type : string) : M unit :=
  fetched <-
    try_except
      (obj <- lift (fetch_event_object event_id) ;; ret (Some obj))
      (fun e =>
         Some (logger_exception "Failed to retrieve event from Stripe (id=%s)"
                                [astr event_id] e ;;
               ret None)) ;;
  match fetched with
  | None => ret tt
  | Some obj =>
    logger_info "Processing event %s (%s)" [astr event_id; astr event_type] ;;
    try_except
      (dispatch_event_type event_type obj)
      (fun e =>
         Some (logger_exception "Handler crashed for event %s (%s)"
                                [astr event_id; astr event_type] e))
  end.

(** main.py, lines 109-121: the call to [construct_event] on the raw
    bytes, and on [TypeError] the second call on the decoded text. *)
Definition verify (payload : list byte) (sig_header : option string) : outcome Event :=
  match construct_event (PBytes payload) sig_header WEBHOOK_SECRET with
  | Raise TypeError =>
    match decode_utf8 payload with
    | Ret text => construct_event (PText text) sig_header WEBHOOK_SECRET
    | Raise e => Raise e
    end
  | r => r
  end.

(** main.py, lines 94-98: [payment_callback] up to its only suspension
    point. *)
Definition payment_callback_enter : M unit :=
  logger_info "POST /api/payment/callback" [] ;;
  if negb (truthy_str WEBHOOK_SECRET) then
    logger_error "Webhook secret not configured" [] ;;
    raise (HTTPException 500 "Webhook secret not configured")
  else ret tt.

(** main.py, lines 103-152: [payment_callback] from the moment
    [await request.body()] has delivered [payload]. *)
Definition payment_callback_resume (request : Request) (payload : list byte)
  : M JSONResponse :=
  try_except
    (let sig_header := headers_get request "stripe-signature" in
     if negb (truthy_str sig_header) then
       raise (HTTPException 400 "Missing stripe-signature header")
     else
       event <- lift (verify payload sig_header) ;;
       match ev_id event, ev_type event with
       | Some event_id, Some event_type =>
         if negb (truthy_str (Some event_id)) || negb (truthy_str (Some event_type))
         then raise (HTTPException 400 "Malformed event (missing id/type)")
         else
           duplicate <- db_contains (Query_event_id_eq event_id) ;;
           if duplicate then
             logger_info "Duplicate event received: %s" [astr event_id] ;;
             ret {| status_code := 200;
                    content := JObj [("received", JBool true);
                                     ("duplicate", JBool true)] |}
           else
             db_insert {| event_id := event_id; type := event_type |} ;;
             add_task {| task_event_id := event_id;
                         task_event_type := event_type |} ;;
             ret {| status_code := 200;
                    content := JObj [("received", JBool true)] |}
       | _, _ => raise (HTTPException 400 "Malformed event (missing id/type)")
       end)
    (fun e =>
       match e with
       | SignatureVerificationError =>
         Some (logger_warning "Invalid Stripe signature" [] ;;
               raise (HTTPException 400 "Invalid signature"))
       | HTTPException _ _ => Some (raise e)
       | _ =>
         Some (logger_exception "Unexpected error while handling webhook: %s"
                                [AExn e] e ;;
               raise (HTTPException 500 "Webhook processing error"))
       end).

(** main.py, lines 93-152. *)
Definition payment_callback (request : Request) : M JSONResponse :=
  payment_callback_enter ;;
  payload <- request_body request ;;
  payment_callback_resume request payload.

(** What the client receives for an endpoint that returned or raised. *)
Definition to_response (r : outcome JSONResponse) : JSONResponse :=
  match r with
  | Ret resp => resp
  | Raise e => exception_response e
  end.

Definition respond (r : outcome JSONResponse) (s : server) : JSONResponse * server :=
  (to_response r,
   {| db := db s; tasks := tasks s;
      trace := trace s ++ [ERespond (to_response r)] |}).

(** One [POST /api/payment/callback], run without interleaving. *)
Definition post_callback (request : Request) (s : server) : JSONResponse * server :=
  let (r, s') := payment_callback request s in respond r s'.

(** A sequence of POSTs handled one after the other. *)
Fixpoint post_all (requests : list Request) (s : server) : list JSONResponse * server :=
  match requests with
  | [] => ([], s)
  | request :: rest =>
    let (resp, s') := post_callback request s in
    let (resps, s'') := post_all rest s' in
    (resp :: resps, s'')
  end.

(** The two bodies the endpoint can return with status 200. *)
Definition received_response : JSONResponse :=
  {| status_code := 200; content := JObj [("received", JBool true)] |}.

Definition duplicate_response : JSONResponse :=
  {| status_code := 200;
     content := JObj [("received", JBool true); ("duplicate", JBool true)] |}.

(** *** The event loop

    [payment_callback] is a coroutine on a single-threaded event loop: it
    runs without interruption except at [await request.body()].  A request
    is therefore handled in two atomic steps, [payment_callback_enter] and,
    once resumed, the rest of the function. *)
Inductive coroutine : Type :=
| Created (request : Request)
| AwaitingBody (request : Request)
| Finished (resp : JSONResponse).

Definition resume (c : coroutine) (s : server) : coroutine * server :=
  match c with
  | Created request =>
    match payment_callback_enter s with
    | (Ret _, s') => (AwaitingBody request, s')
    | (Raise e, s') =>
      let (resp, s'') := respond (Raise e) s' in (Finished resp, s'')
    end
  | AwaitingBody request =>
    let (r, s') :=
      (payload <- request_body request ;;
       payment_callback_resume request payload) s in
    let (resp, s'') := respond r s' in (Finished resp, s'')
  | Finished resp => (Finished resp, s)
  end.

(** The loop resumes the [i]-th coroutine (nothing happens when there is
    none). *)
Fixpoint step_at (i : nat) (cs : list coroutine) (s : server) {struct cs}
  : list coroutine * server :=
  match cs with
  | [] => ([], s)
  | c :: rest =>
    match i with
    | O => let (c', s') := resume c s in (c' :: rest, s')
    | S j => let (rest', s') := step_at j rest s in (c :: rest', s')
    end
  end.

(** A schedule is the order in which the loop resumes the coroutines. *)
Fixpoint run_schedule (schedule : list nat) (cs : list coroutine) (s : server)
  : list coroutine * server :=
  match schedule with
  | [] => (cs, s)
  | i :: later =>
    let (cs', s') := step_at i cs s in run_schedule later cs' s'
  end.

Definition is_finished (c : coroutine) : bool :=
  match c with Finished _ => true | _ => false end.

Definition json_eqb_received (j : json) : bool :=
  match j with
  | JObj [(k, JBool true)] => String.eqb k "received"
  | _ => false
  end.

(** The coroutine finished on the admission path: status 200 and the body
    [{"received": true}]. *)
Definition finished_admitted (c : coroutine) : bool :=
  match c with
  | Finished resp => Z.eqb (status_code resp) 200 && json_eqb_received (content resp)
  | _ => false
  end.

Definition json_eqb_duplicate (j : json) : bool :=
  match j with
  | JObj [(k1, JBool true); (k2, JBool true)] =>
    String.eqb k1 "received" && String.eqb k2 "duplicate"
  | _ => false
  end.

(** The coroutine finished on the duplicate path: status 200 and the body
    [{"received": true, "duplicate": true}]. *)
Definition finished_duplicate (c : coroutine) : bool :=
  match c with
  | Finished resp => Z.eqb (status_code resp) 200 && json_eqb_duplicate (content resp)
  | _ => false
  end.

(** *** Vocabulary of the statements *)

(** [request] carries a validly signed event with id [eid] and type
    [etype]: the signature header is there, verification (lines 109-121)
    returns the event, and the event has the shape line 126 asks for. *)
Definition carries (request : Request) (eid etype : string) : Prop :=
  truthy_str (headers_get request "stripe-signature") = true /\
  verify (body request) (headers_get request "stripe-signature")
  = Ret {| ev_id := Some eid; ev_type := Some etype |} /\
  truthy_str (Some eid) = true /\
  truthy_str (Some etype) = true.

(** The Event Store's [contains(event_id)]. *)
Definition contains (eid : string) (s : server) : bool :=
  existsb (Query_event_id_eq eid) (db s).

(** The DedupRecords of the store with a given id. *)
Definition records_of (eid : string) (s : server) : list DedupRecord :=
  filter (Query_event_id_eq eid) (db s).

Definition is_respond (e : effect) : bool :=
  match e with ERespond _ => true | _ => false end.

Definition is_store_write (e : effect) : bool :=
  match e with EInsert _ => true | _ => false end.

Definition is_add_task (e : effect) : bool :=
  match e with EAddTask _ => true | _ => false end.

Definition is_read_body (e : effect) : bool :=
  match e with EReadBody => true | _ => false end.

(** *** Vocabulary of the event-loop statements *)

Definition admitted_count (cs : list coroutine) : nat :=
  List.length (filter finished_admitted cs).

Definition duplicate_count (cs : list coroutine) : nat :=
  List.length (filter finished_duplicate cs).

Definition finished_count (cs : list coroutine) : nat :=
  List.length (filter is_finished cs).

(** A coroutine of a burst of requests that all bear the event id [eid]:
    a request carrying [eid] that has not finished, or one that finished
    on one of the two success paths. *)
Definition bearing (eid : string) (c : coroutine) : Prop :=
  match c with
  | Created request | AwaitingBody request =>
    exists etype, carries request eid etype
  | Finished resp => resp = received_response \/ resp = duplicate_response
  end.





(** The invariant of a burst of requests bearing [eid], started from the
    store and queue of [s0]: the store and the queue are as at the start
    and nobody has finished, or exactly one coroutine was admitted and its
    record and task are the only additions. *)
Definition loop_invariant (eid : string) (s0 : server)
           (cs : list coroutine) (s : server) : Prop :=
  Forall (bearing eid) cs /\
  finished_count cs = (admitted_count cs + duplicate_count cs)%nat /\
  ((db s = db s0 /\ tasks s = tasks s0 /\ finished_count cs = 0%nat) \/
   (exists etype,
      db s = db s0 ++ [{| event_id := eid; type := etype |}] /\
      tasks s = tasks s0 ++ [{| task_event_id := eid; task_event_type := etype |}] /\
      admitted_count cs = 1%nat)).

End Webhook.

(* ------------------------------------------------------------------ *)
(** ** The rest of the module: the index page, and vocabulary for the
       further properties *)

(** What [GET /] answers: the file, or a JSON body. *)
Inductive index_response : Type :=
| FileResponse (path : list string)
| IndexJSON (r : JSONResponse).

(** main.py, lines 83-89.  [index_exists] is [index_path.exists()] at the
    time of the call; the path is relative to [BASE_DIR]. *)
Definition read_index (index_exists : bool) : M index_response :=
  logger_info "GET /" [] ;;
  if index_exists then ret (FileResponse ["templates"; "index.html"])
  else ret (IndexJSON {| status_code := 200;
                         content := JObj [("status", JStr "ok");
                                          ("message", JStr "no index.html found")] |}).

(** One [GET /]. *)
Definition get_index (index_exists : bool) (s : server) : index_response * server :=
  match read_index index_exists s with
  | (Ret r, s') => (r, s')
  | (Raise e, s') => (IndexJSON (exception_response e), s')
  end.

(** Two states with the same store and the same queue (their logs may
    differ). *)
Definition same_store (s1 s2 : server) : Prop :=
  db s1 = db s2 /\ tasks s1 = tasks s2.

(** A computation whose result, store and queue depend on the store and
    the queue only. *)
Definition respects {A : Type} (m : M A) : Prop :=
  forall s1 s2,
    same_store s1 s2 ->
    fst (m s1) = fst (m s2) /\ same_store (snd (m s1)) (snd (m s2)).

(** A computation that leaves the store and the queue alone. *)
Definition quiet {A : Type} (m : M A) : Prop :=
  forall s, same_store (snd (m s)) s.

(** A computation with no effect at all: not even a log line. *)
Definition silent {A : Type} (m : M A) : Prop :=
  forall s, snd (m s) = s.

(** The event types [process_event_record] has a handler for. *)
Definition is_handled_type (event_type : string) : bool :=
  String.eqb event_type "checkout.session.completed"
  || String.eqb event_type "payment_intent.succeeded".

(** [d.get(k)] on the entries of a mapping. *)
Definition field (d : list (string * pyval)) (k : string) : pyval :=
  match assoc k d with
  | Some v => v
  | None => PNone
  end.

Definition is_ascii (b : byte) : bool := N.ltb (Byte.to_N b) 0x80.

(** The record a scheduled task stands for. *)
Definition record_of_task (t : ProcessingTask) : DedupRecord :=
  {| event_id := task_event_id t; type := task_event_type t |}.

(** The queue mirrors the store: one task per record, same id, same type,
    same order. *)
Definition mirrored (s : server) : Prop :=
  map record_of_task (tasks s) = db s.

Definition is_store_read (e : effect) : bool :=
  match e with EContains _ => true | _ => false end.

Definition is_log (e : effect) : bool :=
  match e with ELog _ _ _ => true | _ => false end.

Definition is_mapping (v : pyval) : bool :=
  match v with PDict _ => true | _ => false end.

Definition is_received (r : JSONResponse) : bool :=
  Z.eqb (status_code r) 200 && json_eqb_received (content r).

(** The bodies the endpoint itself produces. *)
Definition error_response (sc : Z) (detail : string) : JSONResponse :=
  {| status_code := sc; content := JObj [("detail", JStr detail)] |}.

Definition endpoint_responses : list JSONResponse :=
  [received_response; duplicate_response;
   error_response 400 "Missing stripe-signature header";
   error_response 400 "Invalid signature";
   error_response 400 "Malformed event (missing id/type)";
   error_response 500 "Webhook secret not configured";
   error_response 500 "Webhook processing error"].

Definition is_http_exception (e : exn) : bool :=
  match e with HTTPException _ _ => true | _ => false end.

Definition is_signature_error (e : exn) : bool :=
  match e with SignatureVerificationError => true | _ => false end.

Section History.

Variable WEBHOOK_SECRET : option string.
Variable construct_event :
  payload_arg -> option string -> option string -> outcome Event.

(** The request the loop answers when it resumes the [i]-th coroutine, with
    the answer: [cs] is the list before the step, [cs'] after. *)
Definition answered_at (i : nat) (cs cs' : list coroutine)
  : option (Request * JSONResponse) :=
  match nth_error cs i, nth_error cs' i with
  | Some (Created request), Some (Finished resp) => Some (request, resp)
  | Some (AwaitingBody request), Some (Finished resp) => Some (request, resp)
  | _, _ => None
  end.

(** The requests a schedule answers, with their answers, in the order in
    which they are answered. *)
Fixpoint history (schedule : list nat) (cs : list coroutine) (s : server)
  : list (Request * JSONResponse) :=
  match schedule with
  | [] => []
  | i :: later =>
    let (cs', s') := step_at WEBHOOK_SECRET construct_event i cs s in
    match answered_at i cs cs' with
    | Some a => a :: history later cs' s'
    | None => history later cs' s'
    end
  end.

End History.

(** The requests that have been answered, each with the answer its client
    received: [requests] are the requests the coroutines [cs] were created
    for, position by position. *)
Fixpoint answered (requests : list Request) (cs : list coroutine)
  : list (Request * JSONResponse) :=
  match requests, cs with
  | request :: requests', Finished resp :: cs' =>
    (request, resp) :: answered requests' cs'
  | _ :: requests', _ :: cs' => answered requests' cs'
  | _, _ => []
  end.

(** [cs] are coroutines of [requests], position by position. *)
Definition coroutine_of (request : Request) (c : coroutine) : Prop :=
  match c with
  | Created r | AwaitingBody r => r = request
  | Finished _ => True
  end.

(* ------------------------------------------------------------------ *)
(** ** Concrete collaborators used by the examples *)

Module Fixtures.

Definition secret : option string := Some "whsec_test".

Definition good_signature : string := "t=1,v1=5257a869".

Definition checkout_event : Event :=
  {| ev_id := Some "evt_1"; ev_type := Some "checkout.session.completed" |}.

Definition payment_event : Event :=
  {| ev_id := Some "evt_1"; ev_type := Some "payment_intent.succeeded" |}.

(** A verifier that accepts [good_signature] only; the event it returns is
    chosen by the first byte of the payload. *)
Definition event_of_bytes (b : list byte) : Event :=
  match b with
  | "p"%byte :: _ => payment_event
  | _ => checkout_event
  end.

Definition stripe_accepts (p : payload_arg) (sig_header secret : option string)
  : outcome Event :=
  match sig_header with
  | Some sig =>
    if String.eqb sig good_signature then
      match p with
      | PBytes b => Ret (event_of_bytes b)
      | PText _ => Ret checkout_event
      end
    else Raise SignatureVerificationError
  | None => Raise SignatureVerificationError
  end.

(** A verifier of a stripe-python version that wants text: [TypeError] on
    [bytes]. *)
Definition stripe_wants_text (p : payload_arg) (sig_header secret : option string)
  : outcome Event :=
  match p with
  | PBytes _ => Raise TypeError
  | PText _ => stripe_accepts p sig_header secret
  end.

Definition signed (b : list byte) : Request :=
  {| body := b; headers := [("content-type", "application/json");
                            ("stripe-signature", good_signature)] |}.

Definition unsigned (b : list byte) : Request :=
  {| body := b; headers := [("content-type", "application/json")] |}.

Definition empty_server : server := {| db := []; tasks := []; trace := [] |}.

Definition checkout_object : pyval :=
  PDict [("id", PStr "cs_1"); ("customer_email", PStr "a@b.c")].

Definition retrieve_ok (event_id : string) : outcome pyval :=
  Ret (PDict [("data", PDict [("object", checkout_object)])]).

Definition retrieve_fails (event_id : string) : outcome pyval :=
  Raise (OtherException "APIConnectionError").

(** An event whose [data.object] is not a mapping: every handler crashes
    on [obj.get]. *)
Definition retrieve_odd (event_id : string) : outcome pyval :=
  Ret (PDict [("data", PDict [("object", PStr "oops")])]).

Definition customer_fails (c : pyval) : outcome pyval :=
  Raise (OtherException "InvalidRequestError").

End Fixtures.

(* ------------------------------------------------------------------ *)
(** ** The decoder on sample inputs *)

Example utf8_ascii : utf8_decode ["{"%byte; "}"%byte] = Some [123%N; 125%N].
Proof. reflexivity. Qed.

Example utf8_euro : utf8_decode [xe2; x82; xac] = Some [0x20AC%N].
Proof. reflexivity. Qed.

Example utf8_overlong : utf8_decode [xc0; x80] = None.
Proof. reflexivity. Qed.

Example utf8_surrogate : utf8_decode [xed; xa0; x80] = None.
Proof. reflexivity. Qed.

Example utf8_lone_ff : utf8_decode [xff] = None.
Proof. reflexivity. Qed.

(* ------------------------------------------------------------------ *)
(** ** Properties of the admission controller *)

Section AdmissionFacts.

Variable WEBHOOK_SECRET : option string.
Variable construct_event :
  payload_arg -> option string -> option string -> outcome Event.

Abbreviation post := (post_callback WEBHOOK_SECRET construct_event).
Abbreviation carrying := (carries WEBHOOK_SECRET construct_event).

Ltac unfold_handler :=
  unfold post_callback, payment_callback, payment_callback_enter,
    payment_callback_resume, request_body, respond, to_response,
    try_except, bind, ret, raise, lift, logger_info, logger_error,
    logger_warning, logger_exception, db_contains, db_insert, add_task, emit.

Lemma post_callback_no_secret (request : Request) (s : server) :
  truthy_str WEBHOOK_SECRET = false ->
  post request s =
  ({| status_code := 500;
      content := JObj [("detail", JStr "Webhook secret not configured")] |},
   {| db := db s; tasks := tasks s;
      trace := trace s ++
        [ELog INFO "POST /api/payment/callback" []] ++
        [ELog ERROR "Webhook secret not configured" []] ++
        [ERespond {| status_code := 500;
                     content := JObj [("detail", JStr "Webhook secret not configured")] |}] |}).
Proof.
  intros Hs. unfold_handler. rewrite Hs. simpl.
  rewrite <- !app_assoc. reflexivity.
Qed.

Lemma post_callback_admit (request : Request) (eid etype : string) (s : server) :
  truthy_str WEBHOOK_SECRET = true ->
  carrying request eid etype ->
  contains eid s = false ->
  post request s =
  (received_response,
   {| db := db s ++ [{| event_id := eid; type := etype |}];
      tasks := tasks s ++ [{| task_event_id := eid; task_event_type := etype |}];
      trace := trace s ++
        [ELog INFO "POST /api/payment/callback" []; EReadBody; EContains false;
         EInsert {| event_id := eid; type := etype |};
         EAddTask {| task_event_id := eid; task_event_type := etype |};
         ERespond received_response] |}).
Proof.
  intros Hs (Hh & Hv & Hi & Ht) Hc. unfold contains in Hc.
  unfold_handler. rewrite Hs. simpl. rewrite Hh. simpl. rewrite Hv. simpl.
  simpl in Hi, Ht. rewrite Hi, Ht. simpl. rewrite Hc. simpl.
  rewrite <- !app_assoc. reflexivity.
Qed.

Lemma post_callback_duplicate (request : Request) (eid etype : string) (s : server) :
  truthy_str WEBHOOK_SECRET = true ->
  carrying request eid etype ->
  contains eid s = true ->
  post request s =
  (duplicate_response,
   {| db := db s; tasks := tasks s;
      trace := trace s ++
        [ELog INFO "POST /api/payment/callback" []; EReadBody; EContains true;
         ELog INFO "Duplicate event received: %s" [astr eid];
         ERespond duplicate_response] |}).
Proof.
  intros Hs (Hh & Hv & Hi & Ht) Hc. unfold contains in Hc.
  unfold_handler. rewrite Hs. simpl. rewrite Hh. simpl. rewrite Hv. simpl.
  simpl in Hi, Ht. rewrite Hi, Ht. simpl. rewrite Hc. simpl.
  rewrite <- !app_assoc. reflexivity.
Qed.

(** Every POST either leaves the store and the task queue alone, or is
    an admission: a validly signed, well-shaped event whose id the store
    does not contain. *)
Lemma post_callback_cases (request : Request) (s : server) :
  (db (snd (post request s)) = db s /\
   tasks (snd (post request s)) = tasks s /\
   fst (post request s) <> received_response /\
   (fst (post request s) = duplicate_response ->
    exists eid etype, carrying request eid etype /\ contains eid s = true))
  \/
  (truthy_str WEBHOOK_SECRET = true /\
   exists eid etype, carrying request eid etype /\ contains eid s = false).
Proof.
  destruct (truthy_str WEBHOOK_SECRET) eqn:Hs.
  2:{ left. rewrite (post_callback_no_secret request s Hs). simpl.
      repeat split; intros; discriminate. }
  unfold carries, contains. unfold_handler. rewrite Hs. simpl.
  destruct (truthy_str (headers_get request "stripe-signature")) eqn:Hh; simpl.
  2:{ left. repeat split; intros; discriminate. }
  destruct (verify WEBHOOK_SECRET construct_event (body request)
              (headers_get request "stripe-signature")) as [ev|e] eqn:Hv; simpl.
  2:{ left. destruct e; simpl; repeat split; intros; discriminate. }
  destruct ev as [[i|] [t|]]; simpl;
    try (left; repeat split; intros; discriminate).
  destruct (String.eqb i "") eqn:Hi; simpl;
    try (left; repeat split; intros; discriminate).
  destruct (String.eqb t "") eqn:Ht; simpl;
    try (left; repeat split; intros; discriminate).
  destruct (existsb (Query_event_id_eq i) (db s)) eqn:Hc; simpl.
  - left. repeat split; try discriminate.
    intros _. exists i, t. simpl. rewrite Hi, Ht. auto.
  - right. split; [reflexivity|]. exists i, t. simpl. rewrite Hi, Ht. auto.
Qed.

End AdmissionFacts.

Section StoreFacts.

Variable WEBHOOK_SECRET : option string.
Variable construct_event :
  payload_arg -> option string -> option string -> outcome Event.

Abbreviation post := (post_callback WEBHOOK_SECRET construct_event).
Abbreviation posts := (post_all WEBHOOK_SECRET construct_event).
Abbreviation carrying := (carries WEBHOOK_SECRET construct_event).

Lemma carries_functional (request : Request) (e1 t1 e2 t2 : string) :
  carrying request e1 t1 -> carrying request e2 t2 -> e1 = e2 /\ t1 = t2.
Proof.
  intros (_ & H1 & _) (_ & H2 & _). rewrite H1 in H2.
  inversion H2. auto.
Qed.

(** The store changes by appending one record with a fresh id, or not at
    all. *)
Lemma post_db_step (request : Request) (s : server) :
  db (snd (post request s)) = db s \/
  exists eid etype,
    contains eid s = false /\
    db (snd (post request s)) = db s ++ [{| event_id := eid; type := etype |}].
Proof.
  destruct (post_callback_cases WEBHOOK_SECRET construct_event request s)
    as [(Hd & _) | (Hs & eid & etype & Hc & Hn)].
  - left. exact Hd.
  - right. exists eid, etype. split; [exact Hn|].
    rewrite (post_callback_admit _ _ _ _ _ _ Hs Hc Hn). reflexivity.
Qed.

Lemma contains_In (eid : string) (s : server) :
  contains eid s = true <-> In eid (map event_id (db s)).
Proof.
  unfold contains. rewrite existsb_exists, in_map_iff. unfold Query_event_id_eq.
  split.
  - intros (d & Hin & He). apply String.eqb_eq in He. exists d. auto.
  - intros (d & He & Hin). exists d. split; [exact Hin|].
    apply String.eqb_eq. exact He.
Qed.

Lemma post_contains_mono (eid : string) (request : Request) (s : server) :
  contains eid s = true -> contains eid (snd (post request s)) = true.
Proof.
  intros H. unfold contains in *.
  destruct (post_db_step request s) as [E | (e & t & _ & E)]; rewrite E.
  - exact H.
  - rewrite existsb_app, H. reflexivity.
Qed.

Lemma post_records_stable (eid : string) (request : Request) (s : server) :
  contains eid s = true ->
  records_of eid (snd (post request s)) = records_of eid s.
Proof.
  intros H. unfold records_of.
  destruct (post_db_step request s) as [E | (e & t & Hn & E)]; rewrite E.
  - reflexivity.
  - rewrite filter_app. simpl. unfold Query_event_id_eq at 2. simpl.
    destruct (String.eqb e eid) eqn:Heq.
    + apply String.eqb_eq in Heq. subst e. congruence.
    + apply app_nil_r.
Qed.

Lemma post_nodup (request : Request) (s : server) :
  NoDup (map event_id (db s)) ->
  NoDup (map event_id (db (snd (post request s)))).
Proof.
  intros H.
  destruct (post_db_step request s) as [E | (e & t & Hn & E)]; rewrite E.
  - exact H.
  - rewrite map_app. simpl.
    apply NoDup_rev in H. rewrite <- (rev_involutive (_ ++ _)).
    apply NoDup_rev. rewrite rev_app_distr. simpl.
    constructor; [|exact H].
    rewrite <- in_rev. intros Hin. apply contains_In in Hin. congruence.
Qed.

Lemma posts_contains_mono (eid : string) (requests : list Request) (s : server) :
  contains eid s = true -> contains eid (snd (posts requests s)) = true.
Proof.
  revert s. induction requests as [|r rest IH]; intros s H; simpl.
  - exact H.
  - pose proof (post_contains_mono eid r s H) as H1.
    destruct (post r s) as [resp s1]. simpl in H1.
    specialize (IH s1 H1).
    destruct (post_all WEBHOOK_SECRET construct_event rest s1) as [resps s2].
    exact IH.
Qed.

Lemma posts_records_stable (eid : string) (requests : list Request) (s : server) :
  contains eid s = true ->
  records_of eid (snd (posts requests s)) = records_of eid s.
Proof.
  revert s. induction requests as [|r rest IH]; intros s H; simpl.
  - reflexivity.
  - pose proof (post_contains_mono eid r s H) as H1.
    pose proof (post_records_stable eid r s H) as H2.
    destruct (post r s) as [resp s1]. simpl in H1, H2.
    specialize (IH s1 H1).
    destruct (post_all WEBHOOK_SECRET construct_event rest s1) as [resps s2].
    simpl in IH |- *. congruence.
Qed.

Lemma posts_nodup (requests : list Request) (s : server) :
  NoDup (map event_id (db s)) ->
  NoDup (map event_id (db (snd (posts requests s)))).
Proof.
  revert s. induction requests as [|r rest IH]; intros s H; simpl.
  - exact H.
  - pose proof (post_nodup r s H) as H1.
    destruct (post r s) as [resp s1]. simpl in H1.
    specialize (IH s1 H1).
    destruct (post_all WEBHOOK_SECRET construct_event rest s1) as [resps s2].
    exact IH.
Qed.

(** An admission response means the carried event was new and is now the
    last record of the store. *)
Lemma post_received_inv (request : Request) (eid etype : string) (s : server) :
  carrying request eid etype ->
  fst (post request s) = received_response ->
  truthy_str WEBHOOK_SECRET = true /\ contains eid s = false.
Proof.
  intros Hc Hr.
  destruct (post_callback_cases WEBHOOK_SECRET construct_event request s)
    as [(_ & _ & Hne & _) | (Hs & e & t & Hc' & Hn)].
  - contradiction.
  - destruct (carries_functional _ _ _ _ _ Hc Hc') as [-> ->]. auto.
Qed.

Lemma contains_after_insert (eid etype : string) (s0 s : server) :
  db s = db s0 ++ [{| event_id := eid; type := etype |}] ->
  contains eid s = true.
Proof.
  intros E. unfold contains. rewrite E, existsb_app. simpl.
  unfold Query_event_id_eq. simpl. rewrite String.eqb_refl.
  rewrite orb_true_r. reflexivity.
Qed.

Lemma records_of_absent (eid : string) (s : server) :
  contains eid s = false -> records_of eid s = [].
Proof.
  unfold contains, records_of. induction (db s) as [|d l IH]; simpl; intros H.
  - reflexivity.
  - apply orb_false_iff in H. destruct H as [H1 H2].
    rewrite H1. apply IH. exact H2.
Qed.

Lemma records_after_insert (eid etype : string) (s0 s : server) :
  contains eid s0 = false ->
  db s = db s0 ++ [{| event_id := eid; type := etype |}] ->
  records_of eid s = [{| event_id := eid; type := etype |}].
Proof.
  intros Hn E. pose proof (records_of_absent eid s0 Hn) as Hnil.
  unfold records_of in *. rewrite E, filter_app, Hnil. simpl.
  unfold Query_event_id_eq. simpl. rewrite String.eqb_refl. reflexivity.
Qed.

(** The store is append-only: a sequence of POSTs leaves every record
    that was there in place. *)
Lemma posts_db_prefix (requests : list Request) (s : server) :
  exists added, db (snd (posts requests s)) = db s ++ added.
Proof.
  revert s. induction requests as [|r rest IH]; intros s; simpl.
  - exists []. rewrite app_nil_r. reflexivity.
  - pose proof (post_db_step r s) as H1.
    destruct (post r s) as [resp s1]. simpl in H1.
    destruct (IH s1) as (added & E).
    destruct (post_all WEBHOOK_SECRET construct_event rest s1) as [resps s2].
    simpl in E |- *. rewrite E.
    destruct H1 as [-> | (e & t & _ & ->)].
    + exists added. reflexivity.
    + eexists. rewrite <- app_assoc. reflexivity.
Qed.

End StoreFacts.

(* ------------------------------------------------------------------ *)
(** ** Properties of the event loop *)

Section EventLoopFacts.

Variable WEBHOOK_SECRET : option string.
Variable construct_event :
  payload_arg -> option string -> option string -> outcome Event.

Abbreviation carrying := (carries WEBHOOK_SECRET construct_event).
Abbreviation resuming := (resume WEBHOOK_SECRET construct_event).
Abbreviation stepping := (step_at WEBHOOK_SECRET construct_event).
Abbreviation running := (run_schedule WEBHOOK_SECRET construct_event).

Hypothesis secret_configured : truthy_str WEBHOOK_SECRET = true.

(** The event id all the concurrent requests bear. *)
Variable eid : string.

Abbreviation bears := (bearing WEBHOOK_SECRET construct_event eid).

Ltac unfold_resume :=
  unfold resume, payment_callback_enter, payment_callback_resume, request_body,
    respond, to_response, try_except, bind, ret, raise, lift, logger_info,
    logger_error, logger_warning, logger_exception, db_contains, db_insert,
    add_task, emit.

Lemma resume_created (request : Request) (s : server) :
  exists s', resuming (Created request) s = (AwaitingBody request, s') /\
             db s' = db s /\ tasks s' = tasks s.
Proof.
  unfold_resume. rewrite secret_configured. simpl. eexists. split; [reflexivity|].
  simpl. auto.
Qed.




Variable s0 : server.
Hypothesis eid_new : contains eid s0 = false.

Abbreviation invariant := (loop_invariant WEBHOOK_SECRET construct_event eid s0).







(** *** Progress: a fair schedule answers every request *)







End EventLoopFacts.

Section LoopAndHandler.

Variable WEBHOOK_SECRET : option string.
Variable construct_event :
  payload_arg -> option string -> option string -> outcome Event.

(** Resuming a fresh coroutine twice in a row is the uninterrupted
    handler. *)
Lemma resume_twice_is_post (request : Request) (s : server) :
  let (c1, s1) := resume WEBHOOK_SECRET construct_event (Created request) s in
  let (c2, s2) := resume WEBHOOK_SECRET construct_event c1 s1 in
  (c2, s2) =
  (Finished (fst (post_callback WEBHOOK_SECRET construct_event request s)),
   snd (post_callback WEBHOOK_SECRET construct_event request s)).
Proof.
  unfold post_callback, payment_callback, resume, payment_callback_enter,
    request_body, bind, logger_info, logger_error, emit, ret, raise.
  destruct (truthy_str WEBHOOK_SECRET); simpl.
  - destruct (payment_callback_resume WEBHOOK_SECRET construct_event request
                (body request) _) as [r s'].
    reflexivity.
  - reflexivity.
Qed.

End LoopAndHandler.

(* ------------------------------------------------------------------ *)
(** ** Properties of the background processor *)

Section ProcessorFacts.

Variable Event_retrieve : string -> outcome pyval.
Variable Customer_retrieve : pyval -> outcome pyval.

Abbreviation processing := (process_event_record Event_retrieve Customer_retrieve).

Lemma process_fetch_failed (event_id event_type : string) (e : exn) (s : server) :
  fetch_event_object Event_retrieve event_id = Raise e ->
  processing event_id event_type s =
  (Ret tt,
   after s [ELog ERROR "Failed to retrieve event from Stripe (id=%s)"
                 [astr event_id; AExn e]]).
Proof.
  intros H. unfold process_event_record, try_except, bind, lift, ret,
              logger_exception, emit, after.
  rewrite H. simpl. reflexivity.
Qed.

Lemma process_handler_returned (event_id event_type : string) (obj : pyval)
      (s s2 : server) :
  fetch_event_object Event_retrieve event_id = Ret obj ->
  dispatch_event_type Customer_retrieve event_type obj
    (after s [ELog INFO "Processing event %s (%s)" [astr event_id; astr event_type]])
  = (Ret tt, s2) ->
  processing event_id event_type s = (Ret tt, s2).
Proof.
  intros H Hd. unfold process_event_record.
  unfold try_except at 1. unfold bind at 1 2. unfold lift at 1. rewrite H.
  unfold ret at 1. unfold bind at 1. unfold logger_info at 1. unfold emit at 1.
  unfold try_except. unfold after in Hd. rewrite Hd. reflexivity.
Qed.

Lemma process_handler_crashed (event_id event_type : string) (obj : pyval)
      (e : exn) (s s2 : server) :
  fetch_event_object Event_retrieve event_id = Ret obj ->
  dispatch_event_type Customer_retrieve event_type obj
    (after s [ELog INFO "Processing event %s (%s)" [astr event_id; astr event_type]])
  = (Raise e, s2) ->
  processing event_id event_type s =
  (Ret tt,
   after s2 [ELog ERROR "Handler crashed for event %s (%s)"
                  [astr event_id; astr event_type; AExn e]]).
Proof.
  intros H Hd. unfold process_event_record.
  unfold try_except at 1. unfold bind at 1 2. unfold lift at 1. rewrite H.
  unfold ret at 1. unfold bind at 1. unfold logger_info at 1. unfold emit at 1.
  unfold try_except. unfold after in Hd. rewrite Hd.
  unfold logger_exception, emit, after. simpl. reflexivity.
Qed.

Lemma dispatch_unhandled (event_type : string) (obj : pyval) (s : server) :
  event_type <> "checkout.session.completed" ->
  event_type <> "payment_intent.succeeded" ->
  dispatch_event_type Customer_retrieve event_type obj s =
  (Ret tt, after s [ELog INFO "ℹ️ Unhandled event type: %s" [astr event_type]]).
Proof.
  intros H1 H2. unfold dispatch_event_type.
  apply String.eqb_neq in H1. apply String.eqb_neq in H2. rewrite H1, H2.
  reflexivity.
Qed.

End ProcessorFacts.

(* ------------------------------------------------------------------ *)
(** ** The specification's claims about [POST /api/payment/callback] *)

Section AdmissionClaims.

Variable WEBHOOK_SECRET : option string.
Variable construct_event :
  payload_arg -> option string -> option string -> outcome Event.

Abbreviation post := (post_callback WEBHOOK_SECRET construct_event).
Abbreviation posts := (post_all WEBHOOK_SECRET construct_event).
Abbreviation carrying := (carries WEBHOOK_SECRET construct_event).

(** C1.  Once a POST has admitted [eid] (it carried a validly signed event
    with that id and was answered on the admission path), then after any
    further POSTs, a POST carrying a validly signed event with the same id
    is answered 200 with [duplicate = true], inserts nothing into the store
    and schedules no task; the store holds exactly one record for [eid],
    the one of the first admission; and a store without two records of the
    same id never gets two. *)
Theorem admission_is_idempotent
        (first later : Request) (between : list Request)
        (eid t1 t2 : string) (s0 : server) :
  carrying first eid t1 ->
  fst (post first s0) = received_response ->
  carrying later eid t2 ->
  let s1 := snd (post first s0) in
  let s2 := snd (posts between s1) in
  let s3 := snd (post later s2) in
  fst (post later s2) = duplicate_response /\
  db s3 = db s2 /\
  tasks s3 = tasks s2 /\
  records_of eid s3 = [{| event_id := eid; type := t1 |}] /\
  (NoDup (map event_id (db s0)) -> NoDup (map event_id (db s3))).
Proof.
  intros Hfirst Hresp Hlater s1 s2 s3.
  destruct (post_received_inv _ _ _ _ _ _ Hfirst Hresp) as [Hs Hnew].
  pose proof (post_callback_admit _ _ _ _ _ _ Hs Hfirst Hnew) as E1.
  assert (Hdb1 : db s1 = db s0 ++ [{| event_id := eid; type := t1 |}]).
  { unfold s1. rewrite E1. reflexivity. }
  assert (Hc1 : contains eid s1 = true)
    by exact (contains_after_insert _ _ _ _ Hdb1).
  assert (Hr1 : records_of eid s1 = [{| event_id := eid; type := t1 |}])
    by exact (records_after_insert _ _ _ _ Hnew Hdb1).
  assert (Hc2 : contains eid s2 = true)
    by exact (posts_contains_mono WEBHOOK_SECRET construct_event eid between s1 Hc1).
  assert (Hr2 : records_of eid s2 = records_of eid s1)
    by exact (posts_records_stable WEBHOOK_SECRET construct_event eid between s1 Hc1).
  pose proof (post_callback_duplicate _ _ _ _ _ _ Hs Hlater Hc2) as E3.
  assert (Hdb3 : db s3 = db s2) by (unfold s3; rewrite E3; reflexivity).
  repeat split.
  - rewrite E3. reflexivity.
  - exact Hdb3.
  - unfold s3. rewrite E3. reflexivity.
  - unfold records_of in *. rewrite Hdb3. congruence.
  - intros Hnd. rewrite Hdb3. unfold s2.
    apply posts_nodup. unfold s1. apply post_nodup. exact Hnd.
Qed.

(** C2 (as the code has it).  A POST carrying a validly signed event whose
    id the store does not contain is answered 200 with the body
    [{"received": true}]: the body has no [duplicate] field.  The
    [duplicate] field appears only on the duplicate path, set to true:
    whatever the request and the state, a response body with a
    [duplicate] field is the duplicate response, given for a validly
    signed event whose id the store contains. *)
Theorem first_admission_response
        (request : Request) (eid etype : string) (s : server) :
  truthy_str WEBHOOK_SECRET = true ->
  carrying request eid etype ->
  contains eid s = false ->
  fst (post request s) =
  {| status_code := 200; content := JObj [("received", JBool true)] |} /\
  (forall fields, content (fst (post request s)) = JObj fields ->
                  assoc "duplicate" fields = None) /\
  (forall (other : Request) (s' : server) (fields : list (string * json)) (v : json),
      content (fst (post other s')) = JObj fields ->
      assoc "duplicate" fields = Some v ->
      v = JBool true /\
      fst (post other s') = duplicate_response /\
      exists eid' etype', carrying other eid' etype' /\ contains eid' s' = true).
Proof.
  intros Hs Hc Hn. split; [|split].
  - rewrite (post_callback_admit _ _ _ _ _ _ Hs Hc Hn). reflexivity.
  - rewrite (post_callback_admit _ _ _ _ _ _ Hs Hc Hn). simpl.
    intros fields E. inversion E. reflexivity.
  - intros other s' fields v Hf Hv.
    assert (Hdup : fst (post other s') = duplicate_response).
    { revert Hf Hv.
      unfold post_callback, payment_callback, payment_callback_enter,
        payment_callback_resume, request_body, respond, to_response,
        try_except, bind, ret, raise, lift, logger_info, logger_error,
        logger_warning, logger_exception, db_contains, db_insert, add_task, emit.
      destruct (truthy_str WEBHOOK_SECRET); simpl;
        [|intros Hf Hv; inversion Hf; subst; discriminate Hv].
      destruct (truthy_str (headers_get other "stripe-signature")); simpl;
        [|intros Hf Hv; inversion Hf; subst; discriminate Hv].
      destruct (verify WEBHOOK_SECRET construct_event (body other)
                       (headers_get other "stripe-signature")) as [ev|e]; simpl.
      - destruct ev as [[i|] [t|]]; simpl;
          try (intros Hf Hv; inversion Hf; subst; discriminate Hv).
        destruct (String.eqb i ""); simpl;
          try (intros Hf Hv; inversion Hf; subst; discriminate Hv).
        destruct (String.eqb t ""); simpl;
          try (intros Hf Hv; inversion Hf; subst; discriminate Hv).
        destruct (existsb (Query_event_id_eq i) (db s')); simpl;
          intros Hf Hv; [reflexivity | inversion Hf; subst; discriminate Hv].
      - destruct e; simpl; intros Hf Hv; inversion Hf; subst; discriminate Hv. }
    split; [|split; [exact Hdup|]].
    + rewrite Hdup in Hf. inversion Hf; subst. simpl in Hv. inversion Hv. reflexivity.
    + destruct (post_callback_cases WEBHOOK_SECRET construct_event other s')
        as [(_ & _ & _ & Hd) | (Hs' & e & t & Hc' & Hn')].
      * exact (Hd Hdup).
      * rewrite (post_callback_admit _ _ _ _ _ _ Hs' Hc' Hn') in Hdup.
        discriminate Hdup.
Qed.

(** C3.  Whenever a POST is answered on the admission path, the effects of
    that request end with: the insert of the DedupRecord, then the
    scheduling of the task for the same event, then the response; nothing
    before them writes the store, schedules or responds; and the record is
    in the store and the task in the queue when the response goes out. *)
Theorem insert_then_schedule_then_respond (request : Request) (s : server) :
  fst (post request s) = received_response ->
  exists (eid etype : string) (before : list effect),
    let doc := {| event_id := eid; type := etype |} in
    let task := {| task_event_id := eid; task_event_type := etype |} in
    carrying request eid etype /\
    trace (snd (post request s)) =
      trace s ++ before ++ [EInsert doc; EAddTask task; ERespond received_response] /\
    forallb (fun e => negb (is_store_write e || is_add_task e || is_respond e))
            before = true /\
    db (snd (post request s)) = db s ++ [doc] /\
    tasks (snd (post request s)) = tasks s ++ [task].
Proof.
  intros Hresp.
  destruct (post_callback_cases WEBHOOK_SECRET construct_event request s)
    as [(_ & _ & Hne & _) | (Hs & eid & etype & Hc & Hn)].
  - contradiction.
  - exists eid, etype,
      [ELog INFO "POST /api/payment/callback" []; EReadBody; EContains false].
    rewrite (post_callback_admit _ _ _ _ _ _ Hs Hc Hn). simpl.
    split; [exact Hc|]. repeat split; reflexivity.
Qed.

(** C4 (as the code has it).  With the secret configured and the signature
    header present, when [construct_event] wants text (it raises
    [TypeError] on the bytes) and the payload is not valid UTF-8, the
    request is answered 500 with detail "Webhook processing error", and the
    store and the queue are unchanged. *)
Theorem undecodable_payload_is_500 (request : Request) (s : server) :
  truthy_str WEBHOOK_SECRET = true ->
  truthy_str (headers_get request "stripe-signature") = true ->
  construct_event (PBytes (body request))
                  (headers_get request "stripe-signature") WEBHOOK_SECRET
  = Raise TypeError ->
  utf8_decode (body request) = None ->
  fst (post request s) =
  {| status_code := 500;
     content := JObj [("detail", JStr "Webhook processing error")] |} /\
  db (snd (post request s)) = db s /\
  tasks (snd (post request s)) = tasks s.
Proof.
  intros Hs Hh Hte Hu.
  unfold post_callback, payment_callback, payment_callback_enter,
    payment_callback_resume, request_body, respond, to_response,
    try_except, bind, ret, raise, lift, logger_info, logger_error,
    logger_warning, logger_exception, db_contains, db_insert, add_task, emit.
  rewrite Hs. simpl. rewrite Hh. simpl.
  unfold verify, decode_utf8. rewrite Hte, Hu. simpl. auto.
Qed.

(** C5.  When [WEBHOOK_SECRET] is absent, every POST is answered 500 with
    detail "Webhook secret not configured"; its only effects are the two
    log lines and the response (the body is never read); and the outcome
    is the same whatever the request and whatever the verifier. *)
Theorem missing_secret_is_500
        (request : Request) (s : server) :
  let resp := {| status_code := 500;
                 content := JObj [("detail", JStr "Webhook secret not configured")] |} in
  let effects := [ELog INFO "POST /api/payment/callback" [];
                  ELog ERROR "Webhook secret not configured" [];
                  ERespond resp] in
  post_callback None construct_event request s = (resp, after s effects) /\
  existsb is_read_body effects = false /\
  forall (other : Request)
         (verifier : payload_arg -> option string -> option string -> outcome Event),
    post_callback None verifier other s = post_callback None construct_event request s.
Proof.
  split; [|split].
  - rewrite post_callback_no_secret by reflexivity. reflexivity.
  - reflexivity.
  - intros other verifier.
    rewrite !post_callback_no_secret by reflexivity. reflexivity.
Qed.

(** C6.  With the secret configured, a POST without a [stripe-signature]
    header is answered 400 (detail "Missing stripe-signature header"), and
    the store and the queue are unchanged: its only effects are the log
    line, the body read and the response. *)
Theorem missing_signature_is_400 (request : Request) (s : server) :
  truthy_str WEBHOOK_SECRET = true ->
  headers_get request "stripe-signature" = None ->
  let resp := {| status_code := 400;
                 content := JObj [("detail", JStr "Missing stripe-signature header")] |} in
  post request s =
  (resp, after s [ELog INFO "POST /api/payment/callback" []; EReadBody; ERespond resp]) /\
  db (snd (post request s)) = db s.
Proof.
  intros Hs Hh.
  unfold post_callback, payment_callback, payment_callback_enter,
    payment_callback_resume, request_body, respond, to_response,
    try_except, bind, ret, raise, lift, logger_info, logger_error, emit, after.
  rewrite Hs. simpl. rewrite Hh. simpl.
  rewrite <- !app_assoc. simpl. auto.
Qed.

(** C9.  Duplicate detection keys on the event id alone: when the store
    holds a record for [eid] with some type, a POST carrying a validly
    signed event with that id and any type, the same or another, is
    answered 200 with [duplicate = true], inserts nothing and schedules
    nothing, so the stored record keeps its type; whatever POSTs follow,
    the records that were in the store stay as they are; and in every
    state such a POST is answered as a duplicate exactly when the store
    holds a record with that event id (records with other ids, whatever
    their type, do not count). *)
Theorem duplicate_keyed_on_event_id
        (request : Request) (eid stored_type new_type : string) (s : server) :
  truthy_str WEBHOOK_SECRET = true ->
  In {| event_id := eid; type := stored_type |} (db s) ->
  carrying request eid new_type ->
  fst (post request s) = duplicate_response /\
  db (snd (post request s)) = db s /\
  tasks (snd (post request s)) = tasks s /\
  (forall requests, exists added,
      db (snd (posts requests (snd (post request s)))) = db s ++ added) /\
  (forall s',
      fst (post request s') = duplicate_response <->
      exists t, In {| event_id := eid; type := t |} (db s')).
Proof.
  intros Hs Hin Hc.
  assert (Hseen : forall s' t,
             In {| event_id := eid; type := t |} (db s') -> contains eid s' = true).
  { intros s' t H. apply contains_In. apply in_map_iff.
    exists {| event_id := eid; type := t |}. auto. }
  pose proof (post_callback_duplicate _ _ _ _ _ _ Hs Hc (Hseen s stored_type Hin)) as E.
  rewrite E. simpl. repeat split.
  - intros requests.
    destruct (posts_db_prefix WEBHOOK_SECRET construct_event requests
                (snd (post request s))) as (added & Ha).
    exists added. rewrite E in Ha. simpl in Ha. exact Ha.
  - intros Hdup.
    destruct (post_callback_cases WEBHOOK_SECRET construct_event request s')
      as [(_ & _ & _ & Hd) | (_ & e & t & Hc' & Hn')].
    + destruct (Hd Hdup) as (e & t & Hc' & Hcon).
      destruct (carries_functional _ _ _ _ _ _ _ Hc Hc') as [<- _].
      apply contains_In in Hcon. apply in_map_iff in Hcon.
      destruct Hcon as ([i ty] & Hi & Hmem). simpl in Hi. subst i.
      exists ty. exact Hmem.
    + rewrite (post_callback_admit _ _ _ _ _ _ Hs Hc' Hn') in Hdup.
      discriminate Hdup.
  - intros (t & Ht).
    rewrite (post_callback_duplicate _ _ _ _ _ _ Hs Hc (Hseen s' t Ht)).
    reflexivity.
Qed.

(** C10.  A POST answered with status 400 or 500 leaves the store (and the
    queue) unchanged; a POST that changes the store is one answered on the
    admission path, with status 200. *)
Theorem error_leaves_store_unchanged (request : Request) (s : server) :
  (status_code (fst (post request s)) = 400%Z \/
   status_code (fst (post request s)) = 500%Z ->
   db (snd (post request s)) = db s /\ tasks (snd (post request s)) = tasks s) /\
  (db (snd (post request s)) <> db s ->
   fst (post request s) = received_response).
Proof.
  destruct (post_callback_cases WEBHOOK_SECRET construct_event request s)
    as [(Hd & Ht & _) | (Hs & eid & etype & Hc & Hn)].
  - split; [auto|]. intros Hne. contradiction.
  - rewrite (post_callback_admit _ _ _ _ _ _ Hs Hc Hn). simpl.
    split; [|reflexivity].
    intros [H | H]; discriminate.
Qed.

End AdmissionClaims.

(* ------------------------------------------------------------------ *)
(** ** The specification's claims about the background processor *)

Section ProcessorClaims.

Variable Event_retrieve : string -> outcome pyval.
Variable Customer_retrieve : pyval -> outcome pyval.

Abbreviation processing := (process_event_record Event_retrieve Customer_retrieve).

(** The email extraction never raises: whatever its body does, the
    [except Exception] clause turns a failure into [None]. *)
Lemma extract_email_never_raises (obj : pyval) (s : server) :
  exists v s', _extract_email_from_event_object Customer_retrieve obj s = (Ret v, s').
Proof.
  unfold _extract_email_from_event_object, try_except.
  match goal with |- context [match ?m s with _ => _ end] => destruct (m s) as [[v|e] s'] end.
  - exists v, s'. reflexivity.
  - exists PNone, s'. reflexivity.
Qed.

(** C7.  [process_event_record] returns normally for every event id, every
    event type, and every behaviour of the remote calls: when fetching the
    event object fails, the failure is logged and nothing else happens;
    when the handler for the type fails, the failure is logged after
    whatever the handler had done; and for a type that is neither
    "checkout.session.completed" nor "payment_intent.succeeded" the only
    effects are the "Processing" line and the "Unhandled event type"
    line. *)
Theorem process_event_record_never_raises
        (event_id event_type : string) (s : server) :
  (exists s', processing event_id event_type s = (Ret tt, s')) /\
  (forall e,
      fetch_event_object Event_retrieve event_id = Raise e ->
      processing event_id event_type s =
      (Ret tt,
       after s [ELog ERROR "Failed to retrieve event from Stripe (id=%s)"
                     [astr event_id; AExn e]])) /\
  (forall obj e s2,
      fetch_event_object Event_retrieve event_id = Ret obj ->
      dispatch_event_type Customer_retrieve event_type obj
        (after s [ELog INFO "Processing event %s (%s)"
                       [astr event_id; astr event_type]])
      = (Raise e, s2) ->
      processing event_id event_type s =
      (Ret tt,
       after s2 [ELog ERROR "Handler crashed for event %s (%s)"
                      [astr event_id; astr event_type; AExn e]])) /\
  (forall obj,
      fetch_event_object Event_retrieve event_id = Ret obj ->
      event_type <> "checkout.session.completed" ->
      event_type <> "payment_intent.succeeded" ->
      processing event_id event_type s =
      (Ret tt,
       after s [ELog INFO "Processing event %s (%s)"
                     [astr event_id; astr event_type];
                ELog INFO "ℹ️ Unhandled event type: %s" [astr event_type]])).
Proof.
  split; [|split; [|split]].
  - destruct (fetch_event_object Event_retrieve event_id) as [obj|e] eqn:Hf.
    + destruct (dispatch_event_type Customer_retrieve event_type obj
                  (after s [ELog INFO "Processing event %s (%s)"
                                 [astr event_id; astr event_type]]))
        as [[[]|e] s2] eqn:Hd.
      * exists s2. exact (process_handler_returned _ _ _ _ _ _ _ Hf Hd).
      * eexists. exact (process_handler_crashed _ _ _ _ _ _ _ _ Hf Hd).
    + eexists. exact (process_fetch_failed _ _ _ event_type _ s Hf).
  - intros e Hf. exact (process_fetch_failed _ _ _ event_type _ s Hf).
  - intros obj e s2 Hf Hd. exact (process_handler_crashed _ _ _ _ _ _ _ _ Hf Hd).
  - intros obj Hf H1 H2.
    apply (process_handler_returned _ _ _ _ obj _ _ Hf).
    rewrite (dispatch_unhandled Customer_retrieve event_type obj _ H1 H2).
    unfold after. simpl. rewrite <- app_assoc. reflexivity.
Qed.

End ProcessorClaims.

(* ------------------------------------------------------------------ *)
(** ** The specification's claim about concurrent requests *)

Section ConcurrencyClaims.

Variable WEBHOOK_SECRET : option string.
Variable construct_event :
  payload_arg -> option string -> option string -> outcome Event.

Abbreviation carrying := (carries WEBHOOK_SECRET construct_event).
Abbreviation running := (run_schedule WEBHOOK_SECRET construct_event).


End ConcurrencyClaims.

(* ------------------------------------------------------------------ *)
(** ** The claims at concrete requests *)

Import Fixtures.

(** The scenario of the specification: the same event posted again, after
    an unsigned request and with another type, is a duplicate. *)
Lemma admission_is_idempotent_witness :
  let post := post_callback secret stripe_accepts in
  let s1 := snd (post (signed []) empty_server) in
  let s2 := snd (post_all secret stripe_accepts [unsigned []; signed []] s1) in
  let s3 := snd (post (signed ["p"%byte]) s2) in
  fst (post (signed ["p"%byte]) s2) = duplicate_response /\
  db s3 = db s2 /\
  tasks s3 = tasks s2 /\
  records_of "evt_1" s3 = [{| event_id := "evt_1"; type := "checkout.session.completed" |}] /\
  (NoDup (map event_id (db empty_server)) -> NoDup (map event_id (db s3))).
Proof.
  apply (admission_is_idempotent secret stripe_accepts
           (signed []) (signed ["p"%byte]) [unsigned []; signed []]
           "evt_1" "checkout.session.completed" "payment_intent.succeeded"
           empty_server).
  - unfold carries; repeat split.
  - reflexivity.
  - unfold carries; repeat split.
Defined.

(** C2 as stated fails: the first admission of [evt_1] is answered with a
    body that is not [{"received": true, "duplicate": false}]. *)
Lemma first_admission_body_differs :
  truthy_str secret = true /\
  carries secret stripe_accepts (signed []) "evt_1" "checkout.session.completed" /\
  contains "evt_1" empty_server = false /\
  status_code (fst (post_callback secret stripe_accepts (signed []) empty_server)) = 200%Z /\
  content (fst (post_callback secret stripe_accepts (signed []) empty_server))
  <> JObj [("received", JBool true); ("duplicate", JBool false)].
Proof.
  split; [reflexivity|]. split; [unfold carries; repeat split|].
  split; [reflexivity|]. split; [reflexivity|].
  simpl. intros H. discriminate H.
Qed.

Lemma first_admission_response_witness :
  fst (post_callback secret stripe_accepts (signed []) empty_server) =
  {| status_code := 200; content := JObj [("received", JBool true)] |} /\
  (forall fields,
      content (fst (post_callback secret stripe_accepts (signed []) empty_server))
      = JObj fields ->
      assoc "duplicate" fields = None) /\
  (forall (other : Request) (s' : server) (fields : list (string * json)) (v : json),
      content (fst (post_callback secret stripe_accepts other s')) = JObj fields ->
      assoc "duplicate" fields = Some v ->
      v = JBool true /\
      fst (post_callback secret stripe_accepts other s') = duplicate_response /\
      exists eid' etype',
        carries secret stripe_accepts other eid' etype' /\ contains eid' s' = true).
Proof.
  apply (first_admission_response secret stripe_accepts (signed [])
           "evt_1" "checkout.session.completed" empty_server).
  - reflexivity.
  - unfold carries; repeat split.
  - reflexivity.
Defined.

Lemma insert_then_schedule_then_respond_witness :
  exists (eid etype : string) (before : list effect),
    let doc := {| event_id := eid; type := etype |} in
    let task := {| task_event_id := eid; task_event_type := etype |} in
    carries secret stripe_accepts (signed []) eid etype /\
    trace (snd (post_callback secret stripe_accepts (signed []) empty_server)) =
      trace empty_server ++ before
        ++ [EInsert doc; EAddTask task; ERespond received_response] /\
    forallb (fun e => negb (is_store_write e || is_add_task e || is_respond e))
            before = true /\
    db (snd (post_callback secret stripe_accepts (signed []) empty_server))
    = db empty_server ++ [doc] /\
    tasks (snd (post_callback secret stripe_accepts (signed []) empty_server))
    = tasks empty_server ++ [task].
Proof.
  apply (insert_then_schedule_then_respond secret stripe_accepts (signed [])
           empty_server).
  reflexivity.
Defined.

(** C4 as stated fails: the verifier wants text, the payload [0xFF] is not
    UTF-8, and the answer is 500, not 400. *)
Lemma undecodable_payload_not_400 :
  truthy_str secret = true /\
  truthy_str (headers_get (signed [xff]) "stripe-signature") = true /\
  stripe_wants_text (PBytes (body (signed [xff])))
                    (headers_get (signed [xff]) "stripe-signature") secret
  = Raise TypeError /\
  utf8_decode (body (signed [xff])) = None /\
  status_code (fst (post_callback secret stripe_wants_text (signed [xff]) empty_server))
  <> 400%Z.
Proof.
  repeat split. simpl. intros H. discriminate H.
Qed.

Lemma undecodable_payload_is_500_witness :
  fst (post_callback secret stripe_wants_text (signed [xff]) empty_server) =
  {| status_code := 500;
     content := JObj [("detail", JStr "Webhook processing error")] |} /\
  db (snd (post_callback secret stripe_wants_text (signed [xff]) empty_server))
  = db empty_server /\
  tasks (snd (post_callback secret stripe_wants_text (signed [xff]) empty_server))
  = tasks empty_server.
Proof.
  apply (undecodable_payload_is_500 secret stripe_wants_text (signed [xff])
           empty_server); reflexivity.
Defined.

Lemma missing_signature_is_400_witness :
  let resp := {| status_code := 400;
                 content := JObj [("detail", JStr "Missing stripe-signature header")] |} in
  post_callback secret stripe_accepts (unsigned ["{"%byte; "}"%byte]) empty_server =
  (resp,
   after empty_server
         [ELog INFO "POST /api/payment/callback" []; EReadBody; ERespond resp]) /\
  db (snd (post_callback secret stripe_accepts (unsigned ["{"%byte; "}"%byte])
                         empty_server))
  = db empty_server.
Proof.
  apply (missing_signature_is_400 secret stripe_accepts
           (unsigned ["{"%byte; "}"%byte]) empty_server); reflexivity.
Defined.

(** A failed fetch: one ERROR line, and the function returns. *)
Lemma process_event_record_never_raises_witness :
  process_event_record retrieve_fails customer_fails "evt_1"
                       "payment_intent.succeeded" empty_server =
  (Ret tt,
   after empty_server
         [ELog ERROR "Failed to retrieve event from Stripe (id=%s)"
               [astr "evt_1"; AExn (OtherException "APIConnectionError")]]).
Proof.
  apply (proj1 (proj2 (process_event_record_never_raises
                         retrieve_fails customer_fails "evt_1"
                         "payment_intent.succeeded" empty_server))).
  reflexivity.
Defined.


Lemma duplicate_keyed_on_event_id_witness :
  let s := {| db := [{| event_id := "evt_1"; type := "checkout.session.completed" |}];
              tasks := []; trace := [] |} in
  let other := {| db := [{| event_id := "evt_0"; type := "payment_intent.succeeded" |}];
                  tasks := []; trace := [] |} in
  fst (post_callback secret stripe_accepts (signed ["p"%byte]) s) = duplicate_response /\
  db (snd (post_callback secret stripe_accepts (signed ["p"%byte]) s)) = db s /\
  tasks (snd (post_callback secret stripe_accepts (signed ["p"%byte]) s)) = tasks s /\
  fst (post_callback secret stripe_accepts (signed ["p"%byte]) other)
  <> duplicate_response.
Proof.
  intros s other.
  destruct (duplicate_keyed_on_event_id secret stripe_accepts (signed ["p"%byte])
              "evt_1" "checkout.session.completed" "payment_intent.succeeded" s)
    as (H1 & H2 & H3 & _ & H5).
  - reflexivity.
  - simpl. left. reflexivity.
  - unfold carries; repeat split.
  - split; [exact H1|]. split; [exact H2|]. split; [exact H3|].
    intros Hdup. apply (H5 other) in Hdup. destruct Hdup as (t & [Ht | []]).
    discriminate Ht.
Defined.

Lemma error_leaves_store_unchanged_witness :
  let s := {| db := [{| event_id := "evt_0"; type := "payment_intent.succeeded" |}];
              tasks := []; trace := [] |} in
  status_code (fst (post_callback secret stripe_accepts (unsigned []) s)) = 400%Z /\
  db (snd (post_callback secret stripe_accepts (unsigned []) s)) = db s /\
  tasks (snd (post_callback secret stripe_accepts (unsigned []) s)) = tasks s.
Proof.
  intros s. split; [reflexivity|].
  apply (proj1 (error_leaves_store_unchanged secret stripe_accepts (unsigned []) s)).
  left. reflexivity.
Defined.

(** *** The processor on the specification's scenarios *)

Example process_checkout_completed :
  process_event_record retrieve_ok customer_fails "evt_1"
                       "checkout.session.completed" empty_server =
  (Ret tt,
   after empty_server
         [ELog INFO "Processing event %s (%s)"
               [astr "evt_1"; astr "checkout.session.completed"];
          ELog INFO "✅ Checkout completed by %s | session=%s"
               [astr "a@b.c"; astr "cs_1"]]).
Proof. reflexivity. Qed.

Example process_handler_crash_is_logged :
  process_event_record retrieve_odd customer_fails "evt_1"
                       "payment_intent.succeeded" empty_server =
  (Ret tt,
   after empty_server
         [ELog INFO "Processing event %s (%s)"
               [astr "evt_1"; astr "payment_intent.succeeded"];
          ELog ERROR "Handler crashed for event %s (%s)"
               [astr "evt_1"; astr "payment_intent.succeeded";
                AExn AttributeError]]).
Proof. reflexivity. Qed.

Example process_future_event_unhandled :
  process_event_record retrieve_ok customer_fails "evt_9"
                       "some.future.event" empty_server =
  (Ret tt,
   after empty_server
         [ELog INFO "Processing event %s (%s)"
               [astr "evt_9"; astr "some.future.event"];
          ELog INFO "ℹ️ Unhandled event type: %s" [astr "some.future.event"]]).
Proof. reflexivity. Qed.

(** The customer lookup failing inside the email extraction is swallowed:
    the checkout line reports "unknown". *)
Example process_checkout_unknown_email :
  process_event_record
    (fun _ => Ret (PDict [("data", PDict [("object",
                   PDict [("id", PStr "cs_2"); ("customer", PStr "cus_1")])])]))
    customer_fails "evt_2" "checkout.session.completed" empty_server =
  (Ret tt,
   after empty_server
         [ELog INFO "Processing event %s (%s)"
               [astr "evt_2"; astr "checkout.session.completed"];
          ELog INFO "✅ Checkout completed by %s | session=%s"
               [astr "unknown"; astr "cs_2"]]).
Proof. reflexivity. Qed.

(* ------------------------------------------------------------------ *)
(** ** Further facts: what depends on the log, and what touches the store *)

Section Composition.

Lemma same_store_refl (s : server) : same_store s s.
Proof. split; reflexivity. Qed.

Lemma same_store_sym (s1 s2 : server) : same_store s1 s2 -> same_store s2 s1.
Proof. intros [H1 H2]. split; symmetry; assumption. Qed.

Lemma same_store_trans (s1 s2 s3 : server) :
  same_store s1 s2 -> same_store s2 s3 -> same_store s1 s3.
Proof. intros [H1 H2] [H3 H4]. split; congruence. Qed.

Lemma same_store_after (s : server) (es : list effect) : same_store (after s es) s.
Proof. split; reflexivity. Qed.

Lemma respects_ret {A : Type} (a : A) : respects (ret a).
Proof. intros s1 s2 H. simpl. auto. Qed.

Lemma respects_raise {A : Type} (e : exn) : respects (@raise A e).
Proof. intros s1 s2 H. simpl. auto. Qed.

Lemma respects_lift {A : Type} (o : outcome A) : respects (lift o).
Proof. intros s1 s2 H. simpl. auto. Qed.

Lemma respects_emit (e : effect) : respects (emit e).
Proof. intros s1 s2 [H1 H2]. simpl. repeat split; assumption. Qed.

Lemma respects_db_contains (cond : DedupRecord -> bool) : respects (db_contains cond).
Proof.
  intros s1 s2 [H1 H2]. unfold db_contains. simpl. rewrite H1.
  repeat split; assumption.
Qed.

Lemma respects_db_insert (doc : DedupRecord) : respects (db_insert doc).
Proof.
  intros s1 s2 [H1 H2]. unfold db_insert. simpl. rewrite H1.
  repeat split; assumption.
Qed.

Lemma respects_add_task (t : ProcessingTask) : respects (add_task t).
Proof.
  intros s1 s2 [H1 H2]. unfold add_task. simpl. rewrite H2.
  repeat split; assumption.
Qed.

Lemma respects_bind {A B : Type} (m : M A) (k : A -> M B) :
  respects m -> (forall a, respects (k a)) -> respects (bind m k).
Proof.
  intros Hm Hk s1 s2 H. unfold bind.
  destruct (Hm s1 s2 H) as [E1 E2].
  destruct (m s1) as [[a1|e1] t1], (m s2) as [[a2|e2] t2];
    simpl in E1, E2; inversion E1; subst.
  - apply Hk. exact E2.
  - simpl. auto.
Qed.

Lemma respects_try_except {A : Type} (body : M A) (handler : exn -> option (M A)) :
  respects body ->
  (forall e h, handler e = Some h -> respects h) ->
  respects (try_except body handler).
Proof.
  intros Hb Hh s1 s2 H. unfold try_except.
  destruct (Hb s1 s2 H) as [E1 E2].
  destruct (body s1) as [[a1|e1] t1], (body s2) as [[a2|e2] t2];
    simpl in E1, E2; inversion E1; subst.
  - simpl. auto.
  - destruct (handler e2) as [h|] eqn:Eh.
    + apply (Hh e2 h Eh). exact E2.
    + simpl. auto.
Qed.

Lemma quiet_ret {A : Type} (a : A) : quiet (ret a).
Proof. intros s. apply same_store_refl. Qed.

Lemma quiet_raise {A : Type} (e : exn) : quiet (@raise A e).
Proof. intros s. apply same_store_refl. Qed.

Lemma quiet_lift {A : Type} (o : outcome A) : quiet (lift o).
Proof. intros s. apply same_store_refl. Qed.

Lemma quiet_emit (e : effect) : quiet (emit e).
Proof. intros s. split; reflexivity. Qed.

Lemma quiet_bind {A B : Type} (m : M A) (k : A -> M B) :
  quiet m -> (forall a, quiet (k a)) -> quiet (bind m k).
Proof.
  intros Hm Hk s. unfold bind. pose proof (Hm s) as H1.
  destruct (m s) as [[a|e] t]; simpl in H1.
  - apply (same_store_trans _ _ _ (Hk a t) H1).
  - exact H1.
Qed.

Lemma quiet_try_except {A : Type} (body : M A) (handler : exn -> option (M A)) :
  quiet body ->
  (forall e h, handler e = Some h -> quiet h) ->
  quiet (try_except body handler).
Proof.
  intros Hb Hh s. unfold try_except. pose proof (Hb s) as H1.
  destruct (body s) as [[a|e] t]; simpl in H1.
  - exact H1.
  - destruct (handler e) as [h|] eqn:Eh.
    + apply (same_store_trans _ _ _ (Hh e h Eh t) H1).
    + exact H1.
Qed.

End Composition.

Create HintDb respects.
#[export] Hint Resolve respects_ret respects_raise respects_lift respects_emit
  respects_db_contains respects_db_insert respects_add_task : respects.

Create HintDb quiet.
#[export] Hint Resolve quiet_ret quiet_raise quiet_lift quiet_emit : quiet.

Ltac step_respects :=
  match goal with
  | |- respects (bind _ _) => apply respects_bind; [|intros]
  | |- respects (try_except _ _) =>
    apply respects_try_except;
    [|let e := fresh "e" in let h := fresh "h" in let Hh := fresh "Hh" in
      intros e h Hh; destruct e; inversion Hh; subst]
  | |- respects (if ?b then _ else _) => destruct b
  | |- respects (match ?x with _ => _ end) => destruct x
  | |- respects _ => solve [auto with respects]
  end.

Ltac step_quiet :=
  match goal with
  | |- quiet (bind _ _) => apply quiet_bind; [|intros]
  | |- quiet (try_except _ _) =>
    apply quiet_try_except;
    [|let e := fresh "e" in let h := fresh "h" in let Hh := fresh "Hh" in
      intros e h Hh; inversion Hh; subst]
  | |- quiet (if ?b then _ else _) => destruct b
  | |- quiet (match ?x with _ => _ end) => destruct x
  | |- quiet _ => solve [auto with quiet]
  end.

Section HandlerComposition.

Variable WEBHOOK_SECRET : option string.
Variable construct_event :
  payload_arg -> option string -> option string -> outcome Event.
Variable Event_retrieve : string -> outcome pyval.
Variable Customer_retrieve : pyval -> outcome pyval.

Lemma respects_enter : respects (payment_callback_enter WEBHOOK_SECRET).
Proof.
  unfold payment_callback_enter, logger_info, logger_error.
  repeat step_respects.
Qed.

Lemma respects_resume_body (request : Request) (payload : list byte) :
  respects (payment_callback_resume WEBHOOK_SECRET construct_event request payload).
Proof.
  unfold payment_callback_resume, logger_info, logger_warning, logger_exception.
  cbv zeta. repeat step_respects.
Qed.

Lemma respects_payment_callback (request : Request) :
  respects (payment_callback WEBHOOK_SECRET construct_event request).
Proof.
  unfold payment_callback, request_body.
  repeat step_respects; try apply respects_enter; apply respects_resume_body.
Qed.

Lemma quiet_extract_email (obj : pyval) :
  quiet (_extract_email_from_event_object Customer_retrieve obj).
Proof.
  unfold _extract_email_from_event_object. repeat step_quiet.
Qed.

Lemma quiet_dispatch (event_type : string) (obj : pyval) :
  quiet (dispatch_event_type Customer_retrieve event_type obj).
Proof.
  unfold dispatch_event_type, logger_info.
  repeat step_quiet; apply quiet_extract_email.
Qed.

Lemma quiet_process_event_record (event_id event_type : string) :
  quiet (process_event_record Event_retrieve Customer_retrieve event_id event_type).
Proof.
  unfold process_event_record, logger_info, logger_exception.
  repeat step_quiet; apply quiet_dispatch.
Qed.

End HandlerComposition.

(* ------------------------------------------------------------------ *)
(** ** Further properties of [payment_callback]: the failure exits *)

Section FailureExits.

Variable WEBHOOK_SECRET : option string.
Variable construct_event :
  payload_arg -> option string -> option string -> outcome Event.

Abbreviation post := (post_callback WEBHOOK_SECRET construct_event).
Abbreviation verifying := (verify WEBHOOK_SECRET construct_event).
Abbreviation carrying := (carries WEBHOOK_SECRET construct_event).

Ltac unfold_post :=
  unfold post_callback, payment_callback, payment_callback_enter,
    payment_callback_resume, request_body, respond, to_response,
    try_except, bind, ret, raise, lift, logger_info, logger_error,
    logger_warning, logger_exception, db_contains, db_insert, add_task, emit,
    after, error_response.

(** X1.  lines 142-144: when verification raises
    [SignatureVerificationError] (on the bytes, or on the text after the
    fallback), the answer is 400 "Invalid signature"; one WARNING line is
    logged, the store is not even read, and store and queue are
    unchanged. *)
Theorem invalid_signature_is_400 (request : Request) (s : server) :
  truthy_str WEBHOOK_SECRET = true ->
  truthy_str (headers_get request "stripe-signature") = true ->
  verifying (body request) (headers_get request "stripe-signature")
  = Raise SignatureVerificationError ->
  post request s =
  (error_response 400 "Invalid signature",
   after s [ELog INFO "POST /api/payment/callback" []; EReadBody;
            ELog WARNING "Invalid Stripe signature" [];
            ERespond (error_response 400 "Invalid signature")]).
Proof.
  intros Hs Hh Hv. unfold_post. rewrite Hs. simpl. rewrite Hh. simpl.
  rewrite Hv. simpl. rewrite <- !app_assoc. reflexivity.
Qed.

(** X2.  lines 123-127: a validly signed event whose id or type is missing
    or empty is answered 400 "Malformed event (missing id/type)" before the
    store is consulted: the only effects are the log line, the body read
    and the response. *)
Theorem malformed_event_is_400 (request : Request) (event : Event) (s : server) :
  truthy_str WEBHOOK_SECRET = true ->
  truthy_str (headers_get request "stripe-signature") = true ->
  verifying (body request) (headers_get request "stripe-signature") = Ret event ->
  truthy_str (ev_id event) && truthy_str (ev_type event) = false ->
  post request s =
  (error_response 400 "Malformed event (missing id/type)",
   after s [ELog INFO "POST /api/payment/callback" []; EReadBody;
            ERespond (error_response 400 "Malformed event (missing id/type)")]).
Proof.
  intros Hs Hh Hv Hm. unfold_post. rewrite Hs. simpl. rewrite Hh. simpl.
  rewrite Hv. simpl.
  destruct event as [[i|] [t|]]; simpl in *;
    try (rewrite <- !app_assoc; reflexivity).
  destruct (String.eqb i ""); simpl in *;
    try (rewrite <- !app_assoc; reflexivity).
  rewrite Hm. simpl. rewrite <- !app_assoc. reflexivity.
Qed.

(** X3.  lines 150-152: any other exception raised by verification (not a
    signature error, not an HTTPException) is answered 500 with the fixed
    detail "Webhook processing error"; the exception itself goes to the log
    only, and store and queue are unchanged. *)
Theorem unexpected_error_is_generic_500 (request : Request) (e : exn) (s : server) :
  truthy_str WEBHOOK_SECRET = true ->
  truthy_str (headers_get request "stripe-signature") = true ->
  verifying (body request) (headers_get request "stripe-signature") = Raise e ->
  is_signature_error e = false ->
  is_http_exception e = false ->
  post request s =
  (error_response 500 "Webhook processing error",
   after s [ELog INFO "POST /api/payment/callback" []; EReadBody;
            ELog ERROR "Unexpected error while handling webhook: %s"
                 [AExn e; AExn e];
            ERespond (error_response 500 "Webhook processing error")]).
Proof.
  intros Hs Hh Hv H1 H2. unfold_post. rewrite Hs. simpl. rewrite Hh. simpl.
  rewrite Hv. simpl.
  destruct e; simpl in H1, H2; try discriminate; simpl;
    rewrite <- !app_assoc; reflexivity.
Qed.

Lemma verify_raises (payload : list byte) (sig_header : option string) (e : exn) :
  verifying payload sig_header = Raise e ->
  e = UnicodeDecodeError \/
  exists p, construct_event p sig_header WEBHOOK_SECRET = Raise e.
Proof.
  unfold verify, decode_utf8.
  destruct (construct_event (PBytes payload) sig_header WEBHOOK_SECRET)
    as [ev|e1] eqn:E1.
  - discriminate.
  - destruct e1;
      try solve [intros H; inversion H; subst; right; exists (PBytes payload); exact E1].
    destruct (utf8_decode payload) as [text|].
    + intros H. right. eauto.
    + intros H. inversion H. auto.
Qed.

(** X4.  Whatever the request, the store and the verifier's behaviour (as
    long as the verifier does not itself raise an HTTPException), the
    answer is one of seven fixed responses: the two 200 bodies, three 400
    details and two 500 details.  Nothing of the request or of an
    exception ever reaches the response. *)
Theorem response_is_one_of_seven (request : Request) (s : server) :
  (forall p sig_header secret sc detail,
      construct_event p sig_header secret <> Raise (HTTPException sc detail)) ->
  In (fst (post request s)) endpoint_responses.
Proof.
  intros Hce.
  assert (Hv : forall payload sig_header e,
             verifying payload sig_header = Raise e -> is_http_exception e = false).
  { intros payload sig_header e H.
    destruct (verify_raises _ _ _ H) as [-> | (p & Hp)]; [reflexivity|].
    destruct e; try reflexivity.
    exfalso. exact (Hce _ _ _ _ _ Hp). }
  unfold endpoint_responses, received_response, duplicate_response.
  unfold_post.
  destruct (truthy_str WEBHOOK_SECRET); simpl; [|tauto].
  destruct (truthy_str (headers_get request "stripe-signature")); simpl; [|tauto].
  destruct (verifying (body request) (headers_get request "stripe-signature"))
    as [ev|e] eqn:E; simpl.
  - destruct ev as [[i|] [t|]]; simpl; try tauto.
    destruct (String.eqb i ""); simpl; try tauto.
    destruct (String.eqb t ""); simpl; try tauto.
    destruct (existsb (Query_event_id_eq i) (db s)); simpl; tauto.
  - pose proof (Hv _ _ _ E) as Hne.
    destruct e; simpl in Hne; try discriminate; simpl; tauto.
Qed.

(** X5.  lines 94-98: an empty [WEBHOOK_SECRET] is treated like a missing
    one (500 "Webhook secret not configured", the body is not read); every
    other secret passes the check, after the one log line. *)
Theorem secret_check_is_truthiness (request : Request) (s : server) :
  (WEBHOOK_SECRET = None \/ WEBHOOK_SECRET = Some "" ->
   post request s =
   (error_response 500 "Webhook secret not configured",
    after s [ELog INFO "POST /api/payment/callback" [];
             ELog ERROR "Webhook secret not configured" [];
             ERespond (error_response 500 "Webhook secret not configured")])) /\
  (WEBHOOK_SECRET <> None -> WEBHOOK_SECRET <> Some "" ->
   payment_callback_enter WEBHOOK_SECRET s =
   (Ret tt, after s [ELog INFO "POST /api/payment/callback" []])).
Proof.
  split.
  - intros H. rewrite post_callback_no_secret by (destruct H as [-> | ->]; reflexivity).
    reflexivity.
  - intros H1 H2.
    assert (Hs : truthy_str WEBHOOK_SECRET = true).
    { destruct WEBHOOK_SECRET as [w|]; [|congruence]. simpl.
      destruct (String.eqb w "") eqn:E; [|reflexivity].
      apply String.eqb_eq in E. subst. congruence. }
    unfold payment_callback_enter, bind, ret, logger_info, emit, after.
    rewrite Hs. reflexivity.
Qed.

(** X6.  line 105: an empty [stripe-signature] value is handled like a
    missing header: 400 "Missing stripe-signature header", and the verifier
    is never consulted (the outcome is the same for every verifier). *)
Theorem empty_signature_is_missing (request : Request) (s : server) :
  truthy_str WEBHOOK_SECRET = true ->
  truthy_str (headers_get request "stripe-signature") = false ->
  post request s =
  (error_response 400 "Missing stripe-signature header",
   after s [ELog INFO "POST /api/payment/callback" []; EReadBody;
            ERespond (error_response 400 "Missing stripe-signature header")]) /\
  forall verifier, post_callback WEBHOOK_SECRET verifier request s = post request s.
Proof.
  intros Hs Hh. split.
  - unfold_post. rewrite Hs. simpl. rewrite Hh. simpl.
    rewrite <- !app_assoc. reflexivity.
  - intros verifier. unfold_post. rewrite Hs. simpl. rewrite Hh. reflexivity.
Qed.

(** X7.  lines 100-135: the store is consulted only for authenticated,
    well-shaped events.  A request that carries no validly signed event
    with an id and a type performs no store read, no store write and no
    scheduling. *)
Theorem unauthenticated_never_touches_store (request : Request) (s : server) :
  (forall eid etype, ~ carrying request eid etype) ->
  exists effects,
    snd (post request s) = after s effects /\
    existsb (fun e => is_store_read e || is_store_write e || is_add_task e) effects
    = false.
Proof.
  intros Hno. unfold carries in Hno. unfold_post.
  destruct (truthy_str WEBHOOK_SECRET) eqn:Hs; simpl;
    [|eexists; split; [rewrite <- !app_assoc; reflexivity | reflexivity]].
  destruct (truthy_str (headers_get request "stripe-signature")) eqn:Hh; simpl;
    [|eexists; split; [rewrite <- !app_assoc; reflexivity | reflexivity]].
  destruct (verifying (body request) (headers_get request "stripe-signature"))
    as [ev|e] eqn:Hv; simpl.
  - destruct ev as [[i|] [t|]]; simpl;
      try (eexists; split; [rewrite <- !app_assoc; reflexivity | reflexivity]).
    destruct (String.eqb i "") eqn:Hi; simpl;
      try (eexists; split; [rewrite <- !app_assoc; reflexivity | reflexivity]).
    destruct (String.eqb t "") eqn:Ht; simpl;
      try (eexists; split; [rewrite <- !app_assoc; reflexivity | reflexivity]).
    exfalso. apply (Hno i t). simpl. rewrite Hi, Ht. auto.
  - destruct e; simpl;
      eexists; (split; [rewrite <- !app_assoc; reflexivity | reflexivity]).
Qed.

End FailureExits.

(* ------------------------------------------------------------------ *)
(** ** Further properties: the text fallback of the verification *)

Section TextFallback.

Variable WEBHOOK_SECRET : option string.
Variable construct_event :
  payload_arg -> option string -> option string -> outcome Event.

Lemma utf8_decode_ascii_cons (b : byte) (rest : list byte) :
  is_ascii b = true ->
  utf8_decode (b :: rest) = option_map (cons (Byte.to_N b)) (utf8_decode rest).
Proof.
  unfold is_ascii. intros H. cbn [utf8_decode]. rewrite H. reflexivity.
Qed.

Lemma utf8_decode_ascii (payload : list byte) :
  forallb is_ascii payload = true ->
  utf8_decode payload = Some (map Byte.to_N payload).
Proof.
  induction payload as [|b rest IH]; intros H.
  - reflexivity.
  - cbn [forallb] in H. apply andb_true_iff in H. destruct H as [Hb Hr].
    rewrite (utf8_decode_ascii_cons b rest Hb), (IH Hr). reflexivity.
Qed.

(** X8.  lines 115-121: when the verifier wants text ([TypeError] on the
    bytes) and the payload is ASCII, decoding cannot fail: the event is
    verified on the text whose code points are the payload's bytes, and
    the verdict on that text is the verdict of the request. *)
Theorem ascii_payload_verified_as_text (payload : list byte) (sig_header : option string) :
  construct_event (PBytes payload) sig_header WEBHOOK_SECRET = Raise TypeError ->
  forallb is_ascii payload = true ->
  verify WEBHOOK_SECRET construct_event payload sig_header =
  construct_event (PText (map Byte.to_N payload)) sig_header WEBHOOK_SECRET.
Proof.
  intros Hte Hascii. unfold verify, decode_utf8.
  rewrite Hte, (utf8_decode_ascii payload Hascii). reflexivity.
Qed.

End TextFallback.

(* ------------------------------------------------------------------ *)
(** ** Further properties of the background processor *)

Section SilentFacts.

Lemma silent_ret {A : Type} (a : A) : silent (ret a).
Proof. intros s. reflexivity. Qed.

Lemma silent_lift {A : Type} (o : outcome A) : silent (lift o).
Proof. intros s. reflexivity. Qed.

Lemma silent_bind {A B : Type} (m : M A) (k : A -> M B) :
  silent m -> (forall a, silent (k a)) -> silent (bind m k).
Proof.
  intros Hm Hk s. unfold bind. pose proof (Hm s) as H1.
  destruct (m s) as [[a|e] t]; simpl in H1; subst.
  - apply Hk.
  - reflexivity.
Qed.

Lemma silent_try_except {A : Type} (body : M A) (handler : exn -> option (M A)) :
  silent body ->
  (forall e h, handler e = Some h -> silent h) ->
  silent (try_except body handler).
Proof.
  intros Hb Hh s. unfold try_except. pose proof (Hb s) as H1.
  destruct (body s) as [[a|e] t]; simpl in H1; subst.
  - reflexivity.
  - destruct (handler e) as [h|] eqn:Eh.
    + apply (Hh e h Eh).
    + reflexivity.
Qed.

End SilentFacts.

Ltac step_silent :=
  match goal with
  | |- silent (bind _ _) => apply silent_bind; [|intros]
  | |- silent (try_except _ _) =>
    apply silent_try_except;
    [|let e := fresh "e" in let h := fresh "h" in let Hh := fresh "Hh" in
      intros e h Hh; inversion Hh; subst]
  | |- silent (if ?b then _ else _) => destruct b
  | |- silent (ret _) => apply silent_ret
  | |- silent (lift _) => apply silent_lift
  end.

Section EmailExtraction.

Variable Customer_retrieve : pyval -> outcome pyval.

Abbreviation extract := (_extract_email_from_event_object Customer_retrieve).

Lemma silent_extract_email (obj : pyval) : silent (extract obj).
Proof. unfold _extract_email_from_event_object. repeat step_silent. Qed.

Lemma extract_email_total (obj : pyval) (s : server) :
  exists v, extract obj s = (Ret v, s).
Proof.
  destruct (extract_email_never_raises Customer_retrieve obj s) as (v & s' & E).
  pose proof (silent_extract_email obj s) as Hs. rewrite E in Hs. simpl in Hs.
  subst s'. exists v. exact E.
Qed.

(** X9.  lines 39-50: the extraction never raises and has no effect: for
    every object and every behaviour of the customer lookup it returns a
    value and leaves the state, log included, as it was. *)
Theorem extract_email_is_effect_free (obj : pyval) (s : server) :
  exists v, extract obj s = (Ret v, s).
Proof.
  pose proof (silent_extract_email obj s) as Hsilent.
  unfold _extract_email_from_event_object, try_except in *.
  match goal with
  | |- context [match ?m s with _ => _ end] => destruct (m s) as [[v|e] s']
  end; simpl in Hsilent; subst s'.
  - exists v. reflexivity.
  - exists PNone. reflexivity.
Qed.

Lemma py_get_field (d : list (string * pyval)) (k : string) :
  py_get (PDict d) k = Ret (field d k).
Proof.
  unfold py_get, py_get_default, field. destruct (assoc k d); reflexivity.
Qed.

Ltac unfold_extract :=
  unfold _extract_email_from_event_object, try_except, bind, lift, ret,
    py_get, py_get_default, py_getitem, field in *.

(** X10.  line 43: a truthy [customer_email] wins: it is returned as it
    is, whatever else the object holds and whatever the customer lookup
    would answer. *)
Theorem extract_email_prefers_customer_email
        (d : list (string * pyval)) (v : pyval) (s : server) :
  assoc "customer_email" d = Some v ->
  truthy v = true ->
  extract (PDict d) s = (Ret v, s).
Proof.
  intros Hk Ht. unfold_extract. rewrite Hk. simpl. rewrite Ht. simpl.
  rewrite Ht. reflexivity.
Qed.

(** X11.  line 43: when [customer_email] is missing or falsy and
    [customer_details] is a mapping with a truthy [email], that email is
    returned, again without a customer lookup. *)
Theorem extract_email_uses_customer_details
        (d dd : list (string * pyval)) (v : pyval) (s : server) :
  truthy (field d "customer_email") = false ->
  assoc "customer_details" d = Some (PDict dd) ->
  assoc "email" dd = Some v ->
  truthy v = true ->
  extract (PDict d) s = (Ret v, s).
Proof.
  intros Hce Hcd Hem Ht. unfold_extract.
  assert (Hdd : truthy (PDict dd) = true).
  { destruct dd; [discriminate Hem | reflexivity]. }
  destruct (assoc "customer_email" d) as [ce|]; simpl in *;
    rewrite ?Hce; rewrite Hcd; simpl; rewrite Hdd; simpl; rewrite Hem; simpl;
    rewrite Ht; simpl; reflexivity.
Qed.

(** X12.  lines 43-48: what happens when [customer_email] is missing or
    falsy.  (a) If [customer_details] is missing, falsy, or a mapping
    without a truthy [email], and the object names a customer, the
    customer is looked up and the result is the customer's [email]
    (possibly [None]); a lookup that raises, or that returns something
    that is no mapping, gives [None].  (b) If [customer_details] is truthy
    but not a mapping, the result is [None] whatever the object's customer
    and whatever the lookup would answer.  (c) If [customer_details] is as
    in (a) and the object names no customer, no lookup decides the result:
    a falsy value is returned. *)
Theorem extract_email_falls_back_to_customer
        (d : list (string * pyval)) (s : server) :
  truthy (field d "customer_email") = false ->
  ((truthy (field d "customer_details") = false \/
    exists dd, field d "customer_details" = PDict dd /\
               truthy (field dd "email") = false) ->
   truthy (field d "customer") = true ->
   extract (PDict d) s =
   (Ret match Customer_retrieve (field d "customer") with
        | Ret (PDict cust) => field cust "email"
        | _ => PNone
        end,
    s)) /\
  (truthy (field d "customer_details") = true ->
   is_mapping (field d "customer_details") = false ->
   extract (PDict d) s = (Ret PNone, s)) /\
  ((truthy (field d "customer_details") = false \/
    exists dd, field d "customer_details" = PDict dd /\
               truthy (field dd "email") = false) ->
   truthy (field d "customer") = false ->
   exists v, truthy v = false /\ extract (PDict d) s = (Ret v, s)).
Proof.
  intros Hce. split; [|split].
  - intros Hcd Hcu.
    assert (Hc : assoc "customer" d = Some (field d "customer")).
    { unfold field in *. destruct (assoc "customer" d); [reflexivity | discriminate]. }
    unfold _extract_email_from_event_object, try_except, bind, lift, ret.
    cbv beta. rewrite !py_get_field. cbv beta iota. rewrite Hce.
    cbv beta iota.
    destruct Hcd as [Hcd | (dd & Hcd & Hem)].
    + rewrite Hcd. cbv beta iota. rewrite ?py_get_field. cbv beta iota.
      change (truthy (field [] "email")) with false. cbv beta iota.
      rewrite ?py_get_field. cbv beta iota. rewrite Hcu.
      cbn [negb]. cbv beta iota.
      unfold py_getitem. rewrite Hc. cbv beta iota.
      destruct (Customer_retrieve (field d "customer")) as [cust|e]; [|reflexivity].
      destruct cust; try reflexivity. rewrite py_get_field. reflexivity.
    + rewrite Hcd.
      assert (Hem' : truthy (field (if truthy (PDict dd) then dd else []) "email") = false).
      { destruct (truthy (PDict dd)); [exact Hem | reflexivity]. }
      replace (py_get (if truthy (PDict dd) then PDict dd else PDict []) "email")
        with (@Ret pyval (field (if truthy (PDict dd) then dd else []) "email"))
        by (destruct (truthy (PDict dd)); rewrite py_get_field; reflexivity).
      cbv beta iota. rewrite Hem'.
      cbn [negb]. cbv beta iota.
      rewrite ?py_get_field. cbv beta iota. rewrite Hcu. cbv beta iota.
      unfold py_getitem. rewrite Hc. cbv beta iota.
      destruct (Customer_retrieve (field d "customer")) as [cust|e]; [|reflexivity].
      destruct cust; try reflexivity. rewrite py_get_field. reflexivity.
  - intros Ht Hm.
    unfold _extract_email_from_event_object, try_except, bind, lift, ret.
    cbv beta. rewrite !py_get_field. cbv beta iota. rewrite Hce.
    cbv beta iota. rewrite Ht. cbv beta iota.
    destruct (field d "customer_details"); try discriminate Hm; reflexivity.
  - intros Hcd Hcu.
    unfold _extract_email_from_event_object, try_except, bind, lift, ret.
    cbv beta. rewrite !py_get_field. cbv beta iota. rewrite Hce.
    cbv beta iota.
    destruct Hcd as [Hcd | (dd & Hcd & Hem)].
    + rewrite Hcd. cbv beta iota. rewrite ?py_get_field. cbv beta iota.
      change (truthy (field [] "email")) with false. cbv beta iota.
      rewrite ?py_get_field. cbv beta iota. rewrite Hcu.
      cbn [negb]. cbv beta iota.
      exists (field [] "email"). split; reflexivity.
    + rewrite Hcd.
      assert (Hem' : truthy (field (if truthy (PDict dd) then dd else []) "email") = false).
      { destruct (truthy (PDict dd)); [exact Hem | reflexivity]. }
      replace (py_get (if truthy (PDict dd) then PDict dd else PDict []) "email")
        with (@Ret pyval (field (if truthy (PDict dd) then dd else []) "email"))
        by (destruct (truthy (PDict dd)); rewrite py_get_field; reflexivity).
      cbv beta iota. rewrite Hem'.
      cbn [negb]. cbv beta iota.
      rewrite ?py_get_field. cbv beta iota. rewrite Hcu. cbv beta iota.
      exists (field (if truthy (PDict dd) then dd else []) "email").
      split; [exact Hem' | reflexivity].
Qed.

(** X13.  lines 41-50: an object that is not a mapping has no [get]: the
    failure is swallowed and the result is [None]. *)
Theorem extract_email_of_non_mapping (obj : pyval) (s : server) :
  is_mapping obj = false ->
  extract obj s = (Ret PNone, s).
Proof.
  intros H. unfold_extract. destruct obj; try discriminate; reflexivity.
Qed.

End EmailExtraction.

Section HandlerFacts.

Variable Event_retrieve : string -> outcome pyval.
Variable Customer_retrieve : pyval -> outcome pyval.

Abbreviation dispatching := (dispatch_event_type Customer_retrieve).
Abbreviation processing := (process_event_record Event_retrieve Customer_retrieve).
Abbreviation fetching := (fetch_event_object Event_retrieve).

Lemma py_get_non_mapping (obj : pyval) (k : string) :
  is_mapping obj = false -> py_get obj k = Raise AttributeError.
Proof. destruct obj; try discriminate; reflexivity. Qed.

Lemma dispatch_on_mapping (event_type : string) (d : list (string * pyval)) (s : server) :
  exists msg args,
    dispatching event_type (PDict d) s = (Ret tt, after s [ELog INFO msg args]).
Proof.
  unfold dispatch_event_type.
  destruct (String.eqb event_type "checkout.session.completed").
  - destruct (extract_email_total Customer_retrieve (PDict d) s) as (v & E).
    unfold bind at 1. rewrite E. unfold bind, lift. rewrite py_get_field.
    cbv beta iota. eexists. eexists. reflexivity.
  - destruct (String.eqb event_type "payment_intent.succeeded").
    + unfold bind, lift, ret. rewrite !py_get_field. cbv beta iota.
      destruct (truthy (field d "amount_received")); cbv beta iota;
        rewrite ?py_get_field; eexists; eexists; reflexivity.
    + eexists. eexists. reflexivity.
Qed.

Lemma dispatch_on_non_mapping (event_type : string) (obj : pyval) (s : server) :
  is_mapping obj = false ->
  is_handled_type event_type = true ->
  dispatching event_type obj s = (Raise AttributeError, s).
Proof.
  intros Hm Hh. unfold dispatch_event_type, is_handled_type in *.
  destruct (String.eqb event_type "checkout.session.completed").
  - destruct (extract_email_total Customer_retrieve obj s) as (v & E).
    unfold bind at 1. rewrite E. unfold bind, lift.
    rewrite (py_get_non_mapping obj "id" Hm). reflexivity.
  - simpl in Hh. rewrite Hh. unfold bind, lift.
    rewrite (py_get_non_mapping obj "amount_received" Hm). reflexivity.
Qed.

Lemma dispatch_on_unhandled (event_type : string) (obj : pyval) (s : server) :
  is_handled_type event_type = false ->
  dispatching event_type obj s =
  (Ret tt, after s [ELog INFO "ℹ️ Unhandled event type: %s" [astr event_type]]).
Proof.
  unfold is_handled_type, dispatch_event_type. intros H.
  apply orb_false_iff in H. destruct H as [H1 H2]. rewrite H1, H2. reflexivity.
Qed.

(** X14.  lines 64-80: a handler fails exactly when the event type has a
    handler and the fetched object is not a mapping; the failure is an
    [AttributeError] raised before the handler has logged anything.  In
    every other case the dispatch returns after exactly one INFO line. *)
Theorem handler_fails_only_on_non_mapping
        (event_type : string) (obj : pyval) (s : server) :
  (is_mapping obj = false -> is_handled_type event_type = true ->
   dispatching event_type obj s = (Raise AttributeError, s)) /\
  (is_mapping obj = true \/ is_handled_type event_type = false ->
   exists msg args,
     dispatching event_type obj s = (Ret tt, after s [ELog INFO msg args])).
Proof.
  split.
  - apply dispatch_on_non_mapping.
  - intros [Hm | Hu].
    + destruct obj; try discriminate. apply dispatch_on_mapping.
    + eexists. eexists. apply dispatch_on_unhandled. exact Hu.
Qed.

Lemma process_after_fetch (event_id event_type : string) (obj : pyval) (s : server) :
  fetching event_id = Ret obj ->
  exists line,
    is_log line = true /\
    processing event_id event_type s =
    (Ret tt,
     after s [ELog INFO "Processing event %s (%s)" [astr event_id; astr event_type];
              line]).
Proof.
  intros Hf.
  set (s1 := after s [ELog INFO "Processing event %s (%s)"
                           [astr event_id; astr event_type]]).
  destruct (is_mapping obj) eqn:Hm; [|destruct (is_handled_type event_type) eqn:Hh].
  - destruct obj; try discriminate.
    destruct (dispatch_on_mapping event_type d s1) as (msg & args & E).
    exists (ELog INFO msg args). split; [reflexivity|].
    rewrite (process_handler_returned _ _ _ _ _ _ _ Hf E).
    unfold s1, after. simpl. rewrite <- app_assoc. reflexivity.
  - pose proof (dispatch_on_non_mapping event_type obj s1 Hm Hh) as E.
    eexists. split; [|rewrite (process_handler_crashed _ _ _ _ _ _ _ _ Hf E);
                      unfold s1, after; simpl; rewrite <- app_assoc; reflexivity].
    reflexivity.
  - pose proof (dispatch_on_unhandled event_type obj s1 Hh) as E.
    eexists. split; [|rewrite (process_handler_returned _ _ _ _ _ _ _ Hf E);
                      unfold s1, after; simpl; rewrite <- app_assoc; reflexivity].
    reflexivity.
Qed.

(** X15.  lines 53-80: a run of [process_event_record] appends log lines
    and does nothing else: one ERROR line when the fetch fails, otherwise
    the "Processing event" line followed by exactly one more line; the
    store and the queue are never touched. *)
Theorem process_appends_one_or_two_lines
        (event_id event_type : string) (s : server) :
  exists lines,
    processing event_id event_type s = (Ret tt, after s lines) /\
    forallb is_log lines = true /\
    match fetching event_id with
    | Raise e =>
      lines = [ELog ERROR "Failed to retrieve event from Stripe (id=%s)"
                    [astr event_id; AExn e]]
    | Ret _ =>
      exists line,
        lines = [ELog INFO "Processing event %s (%s)" [astr event_id; astr event_type];
                 line]
    end.
Proof.
  destruct (fetching event_id) as [obj|e] eqn:Hf.
  - destruct (process_after_fetch event_id event_type obj s Hf) as (line & Hl & E).
    eexists. split; [exact E|]. split.
    + simpl. rewrite Hl. reflexivity.
    + exists line. reflexivity.
  - eexists. split; [exact (process_fetch_failed _ _ _ event_type _ s Hf)|].
    split; reflexivity.
Qed.

(** X16.  lines 65-67: the checkout line never shows a blank email.  For
    a fetched mapping, the email logged for "checkout.session.completed"
    is the value the extraction returns when the handler calls it, if that
    value is truthy, and the string "unknown" otherwise; so it is always
    truthy.  The session logged is the object's [id]. *)
Theorem checkout_email_never_blank
        (event_id : string) (d : list (string * pyval)) (s : server) :
  fetching event_id = Ret (PDict d) ->
  let s1 := after s [ELog INFO "Processing event %s (%s)"
                          [astr event_id; astr "checkout.session.completed"]] in
  exists extracted,
    _extract_email_from_event_object Customer_retrieve (PDict d) s1
    = (Ret extracted, s1) /\
    let email := if truthy extracted then extracted else PStr "unknown" in
    truthy email = true /\
    processing event_id "checkout.session.completed" s =
    (Ret tt,
     after s [ELog INFO "Processing event %s (%s)"
                   [astr event_id; astr "checkout.session.completed"];
              ELog INFO "✅ Checkout completed by %s | session=%s"
                   [AVal email; AVal (field d "id")]]).
Proof.
  intros Hf s1.
  destruct (extract_email_total Customer_retrieve (PDict d) s1) as (v & E).
  exists v. split; [exact E|]. split.
  - destruct (truthy v) eqn:Hv; [exact Hv | reflexivity].
  - assert (Hd : dispatching "checkout.session.completed" (PDict d) s1 =
                 (Ret tt,
                  after s1 [ELog INFO "✅ Checkout completed by %s | session=%s"
                                 [AVal (if truthy v then v else PStr "unknown");
                                  AVal (field d "id")]])).
    { unfold dispatch_event_type. rewrite String.eqb_refl.
      unfold bind at 1. rewrite E. unfold bind, lift. rewrite py_get_field.
      reflexivity. }
    rewrite (process_handler_returned _ _ _ _ _ _ _ Hf Hd).
    unfold s1, after. simpl. rewrite <- app_assoc. reflexivity.
Qed.

(** X17.  lines 71-73: the amount logged for "payment_intent.succeeded" is
    [amount_received] when that is truthy and [amount] otherwise, so an
    [amount_received] of 0 is reported as the intent's [amount]; missing
    fields are logged as [None]. *)
Theorem payment_amount_falls_back
        (event_id : string) (d : list (string * pyval)) (s : server) :
  fetching event_id = Ret (PDict d) ->
  processing event_id "payment_intent.succeeded" s =
  (Ret tt,
   after s [ELog INFO "Processing event %s (%s)"
                 [astr event_id; astr "payment_intent.succeeded"];
            ELog INFO "💸 Payment succeeded: %s %s | intent=%s"
                 [AVal (if truthy (field d "amount_received")
                        then field d "amount_received" else field d "amount");
                  AVal (field d "currency"); AVal (field d "id")]]).
Proof.
  intros Hf.
  apply (process_handler_returned _ _ _ _ (PDict d) _ _ Hf).
  unfold dispatch_event_type.
  replace (String.eqb "payment_intent.succeeded" "checkout.session.completed")
    with false by reflexivity.
  rewrite String.eqb_refl.
  unfold bind, lift, ret. rewrite !py_get_field. cbv beta iota.
  destruct (truthy (field d "amount_received")); cbv beta iota;
    rewrite ?py_get_field; unfold logger_info, emit, after; simpl;
    rewrite <- app_assoc; reflexivity.
Qed.

(** X18.  lines 56-57 and 65-67: an event without [data], or whose [data]
    has no [object], is not a fetch failure: it is processed as the empty
    object, so a checkout is logged with email "unknown" and session
    [None]. *)
Theorem event_without_object_is_processed
        (event_id : string) (ev : list (string * pyval)) (s : server) :
  Event_retrieve event_id = Ret (PDict ev) ->
  (assoc "data" ev = None \/
   exists data, assoc "data" ev = Some (PDict data) /\ assoc "object" data = None) ->
  processing event_id "checkout.session.completed" s =
  (Ret tt,
   after s [ELog INFO "Processing event %s (%s)"
                 [astr event_id; astr "checkout.session.completed"];
            ELog INFO "✅ Checkout completed by %s | session=%s"
                 [astr "unknown"; AVal PNone]]).
Proof.
  intros Hev Hdata.
  assert (Hf : fetching event_id = Ret (PDict [])).
  { unfold fetch_event_object, py_get_default. rewrite Hev.
    destruct Hdata as [H | (data & H1 & H2)].
    - rewrite H. reflexivity.
    - rewrite H1, H2. reflexivity. }
  apply (process_handler_returned _ _ _ _ (PDict []) _ _ Hf).
  unfold after, dispatch_event_type, _extract_email_from_event_object,
    try_except, bind, lift, ret, logger_info, emit.
  simpl. rewrite <- app_assoc. reflexivity.
Qed.

End HandlerFacts.

(* ------------------------------------------------------------------ *)
(** ** Further properties: how requests and processing compose *)

Section SequentialComposition.

Variable WEBHOOK_SECRET : option string.
Variable construct_event :
  payload_arg -> option string -> option string -> outcome Event.

Abbreviation post := (post_callback WEBHOOK_SECRET construct_event).
Abbreviation posts := (post_all WEBHOOK_SECRET construct_event).
Abbreviation carrying := (carries WEBHOOK_SECRET construct_event).

Lemma post_respects (request : Request) (s1 s2 : server) :
  same_store s1 s2 ->
  fst (post request s1) = fst (post request s2) /\
  same_store (snd (post request s1)) (snd (post request s2)).
Proof.
  intros H. unfold post_callback, respond.
  destruct (respects_payment_callback WEBHOOK_SECRET construct_event request s1 s2 H)
    as [E1 [E2 E3]].
  destruct (payment_callback WEBHOOK_SECRET construct_event request s1) as [r1 t1].
  destruct (payment_callback WEBHOOK_SECRET construct_event request s2) as [r2 t2].
  simpl in *. subst r2. repeat split; assumption.
Qed.

Lemma post_all_respects (requests : list Request) (s1 s2 : server) :
  same_store s1 s2 ->
  fst (posts requests s1) = fst (posts requests s2) /\
  same_store (snd (posts requests s1)) (snd (posts requests s2)).
Proof.
  revert s1 s2. induction requests as [|r rest IH]; intros s1 s2 H; simpl.
  - auto.
  - destruct (post_respects r s1 s2 H) as [E1 E2].
    destruct (post r s1) as [a1 t1], (post r s2) as [a2 t2]. simpl in E1, E2.
    destruct (IH t1 t2 E2) as [E3 E4].
    destruct (post_all WEBHOOK_SECRET construct_event rest t1) as [b1 u1].
    destruct (post_all WEBHOOK_SECRET construct_event rest t2) as [b2 u2].
    simpl in *. subst. auto.
Qed.

Lemma post_all_app (first second : list Request) (s : server) :
  posts (first ++ second) s =
  (fst (posts first s) ++ fst (posts second (snd (posts first s))),
   snd (posts second (snd (posts first s)))).
Proof.
  revert s. induction first as [|r rest IH]; intros s; simpl.
  - destruct (posts second s). reflexivity.
  - destruct (post r s) as [a t]. rewrite IH.
    destruct (post_all WEBHOOK_SECRET construct_event rest t) as [b u]. simpl.
    reflexivity.
Qed.

Lemma is_received_spec (r : JSONResponse) :
  is_received r = true <-> r = received_response.
Proof.
  split.
  - destruct r as [sc c]. unfold is_received. simpl. intros H.
    apply andb_true_iff in H. destruct H as [H1 H2].
    apply Z.eqb_eq in H1. subst sc.
    destruct c as [b|str|fields]; try discriminate.
    destruct fields as [|[k v] rest]; try discriminate.
    destruct v as [b|str|f]; try discriminate.
    destruct b; try discriminate.
    destruct rest; try discriminate.
    simpl in H2. apply String.eqb_eq in H2. subst k. reflexivity.
  - intros ->. reflexivity.
Qed.

(** One POST: nothing happens to store and queue and the answer is not the
    admission response, or one record and its task are appended and the
    answer is the admission response. *)
Lemma post_step (request : Request) (s : server) :
  (same_store (snd (post request s)) s /\ is_received (fst (post request s)) = false) \/
  (exists eid etype,
      carrying request eid etype /\
      contains eid s = false /\
      fst (post request s) = received_response /\
      db (snd (post request s)) = db s ++ [{| event_id := eid; type := etype |}] /\
      tasks (snd (post request s)) =
      tasks s ++ [{| task_event_id := eid; task_event_type := etype |}]).
Proof.
  destruct (post_callback_cases WEBHOOK_SECRET construct_event request s)
    as [(Hd & Ht & Hne & _) | (Hs & eid & etype & Hc & Hn)].
  - left. split; [split; assumption|].
    destruct (is_received (fst (post request s))) eqn:E; [|reflexivity].
    apply is_received_spec in E. contradiction.
  - right. exists eid, etype.
    rewrite (post_callback_admit _ _ _ _ _ _ Hs Hc Hn). simpl. auto.
Qed.

(** X19.  The answer to a POST, and what it does to the store and the
    queue, depend on the request, the store and the queue only: two states
    that differ in their logs give the same answer and the same store and
    queue. *)
Theorem answer_depends_on_store_only (request : Request) (s1 s2 : server) :
  db s1 = db s2 ->
  tasks s1 = tasks s2 ->
  fst (post request s1) = fst (post request s2) /\
  db (snd (post request s1)) = db (snd (post request s2)) /\
  tasks (snd (post request s1)) = tasks (snd (post request s2)).
Proof.
  intros H1 H2. destruct (post_respects request s1 s2 (conj H1 H2)) as [E [E1 E2]].
  auto.
Qed.

(** X20.  The queue mirrors the store: if every record has its task (same
    id, same type, same order), as in the empty initial state, this still
    holds after any sequence of POSTs. *)
Theorem queue_mirrors_store (requests : list Request) (s : server) :
  mirrored s -> mirrored (snd (posts requests s)).
Proof.
  revert s. induction requests as [|r rest IH]; intros s H; simpl.
  - exact H.
  - assert (H1 : mirrored (snd (post r s))).
    { unfold mirrored in *.
      destruct (post_step r s) as [([Hd Ht] & _) | (e & t & _ & _ & _ & Hd & Ht)].
      - rewrite Hd, Ht. exact H.
      - rewrite Hd, Ht, map_app, H. reflexivity. }
    destruct (post r s) as [a t]. simpl in H1. specialize (IH t H1).
    destruct (post_all WEBHOOK_SECRET construct_event rest t). exact IH.
Qed.

(** X21.  The store grows by exactly one record per admission response:
    after a sequence of POSTs, its size is the size before plus the number
    of [{"received": true}] answers, and so is the queue's. *)
Theorem store_grows_with_admissions (requests : list Request) (s : server) :
  List.length (db (snd (posts requests s))) =
  (List.length (db s) + List.length (filter is_received (fst (posts requests s))))%nat /\
  List.length (tasks (snd (posts requests s))) =
  (List.length (tasks s) + List.length (filter is_received (fst (posts requests s))))%nat.
Proof.
  revert s. induction requests as [|r rest IH]; intros s; simpl.
  - split; lia.
  - pose proof (post_step r s) as H1.
    destruct (post r s) as [a t]. simpl in H1. specialize (IH t).
    destruct (post_all WEBHOOK_SECRET construct_event rest t) as [b u].
    simpl in IH |- *. destruct IH as [IH1 IH2].
    destruct H1 as [([Hd Ht] & Hr) | (e & ty & _ & _ & Hr & Hd & Ht)].
    + rewrite Hr. rewrite IH1, IH2, Hd, Ht. split; reflexivity.
    + subst a. simpl. rewrite IH1, IH2, Hd, Ht, !length_app. simpl. split; lia.
Qed.

(** A request is settled in a state when a POST of it can no longer be an
    admission there. *)
Lemma settled_after_post (request : Request) (s : server) (eid etype : string) :
  truthy_str WEBHOOK_SECRET = true ->
  carrying request eid etype ->
  contains eid (snd (post request s)) = true.
Proof.
  intros Hs Hc. destruct (contains eid s) eqn:E.
  - apply post_contains_mono. exact E.
  - rewrite (post_callback_admit _ _ _ _ _ _ Hs Hc E).
    apply (contains_after_insert eid etype s). reflexivity.
Qed.

Lemma post_of_settled (request : Request) (s : server) :
  (truthy_str WEBHOOK_SECRET = true ->
   forall eid etype, carrying request eid etype -> contains eid s = true) ->
  same_store (snd (post request s)) s.
Proof.
  intros H.
  destruct (post_callback_cases WEBHOOK_SECRET construct_event request s)
    as [(Hd & Ht & _) | (Hs & eid & etype & Hc & Hn)].
  - split; assumption.
  - rewrite (H Hs eid etype Hc) in Hn. discriminate.
Qed.

Lemma posts_of_settled (requests : list Request) (s : server) :
  (truthy_str WEBHOOK_SECRET = true ->
   forall request eid etype,
     In request requests -> carrying request eid etype -> contains eid s = true) ->
  same_store (snd (posts requests s)) s.
Proof.
  revert s. induction requests as [|r rest IH]; intros s H; simpl.
  - apply same_store_refl.
  - assert (H1 : same_store (snd (post r s)) s).
    { apply post_of_settled. intros Hs eid etype Hc.
      apply (H Hs r eid etype); [left; reflexivity | exact Hc]. }
    destruct (post r s) as [a t]. simpl in H1.
    assert (H2 : same_store (snd (posts rest t)) t).
    { apply IH. intros Hs request eid etype Hin Hc.
      unfold contains. destruct H1 as [Hd _]. rewrite Hd.
      apply (H Hs request eid etype); [right; exact Hin | exact Hc]. }
    destruct (post_all WEBHOOK_SECRET construct_event rest t) as [b u].
    simpl in *. apply (same_store_trans _ _ _ H2 H1).
Qed.

Lemma posts_settle (requests : list Request) (s : server) :
  truthy_str WEBHOOK_SECRET = true ->
  forall request eid etype,
    In request requests -> carrying request eid etype ->
    contains eid (snd (posts requests s)) = true.
Proof.
  intros Hs. revert s. induction requests as [|r rest IH];
    intros s request eid etype Hin Hc; simpl.
  - contradiction.
  - pose proof (settled_after_post r s) as H1.
    destruct (post r s) as [a t] eqn:Ep. simpl in H1.
    destruct Hin as [-> | Hin].
    + pose proof (posts_contains_mono WEBHOOK_SECRET construct_event eid rest t
                                      (H1 eid etype Hs Hc)) as H2.
      destruct (post_all WEBHOOK_SECRET construct_event rest t). exact H2.
    + pose proof (IH t request eid etype Hin Hc) as H2.
      destruct (post_all WEBHOOK_SECRET construct_event rest t). exact H2.
Qed.

Lemma posts_of_settled_answers (requests : list Request) (s : server) :
  (truthy_str WEBHOOK_SECRET = true ->
   forall request eid etype,
     In request requests -> carrying request eid etype -> contains eid s = true) ->
  Forall (fun r => is_received r = false) (fst (posts requests s)).
Proof.
  revert s. induction requests as [|r rest IH]; intros s Hsettled; simpl.
  - constructor.
  - assert (H1 : same_store (snd (post r s)) s).
    { apply post_of_settled. intros Hs eid etype Hc.
      apply (Hsettled Hs r eid etype); [left; reflexivity | exact Hc]. }
    assert (Hr : is_received (fst (post r s)) = false).
    { destruct (post_step r s) as [(_ & Hr) | (e & t & Hc & Hn & Hr & _)];
        [exact Hr|].
      destruct (post_callback_cases WEBHOOK_SECRET construct_event r s)
        as [(_ & _ & Hne & _) | (Hs & _)]; [contradiction|].
      rewrite (Hsettled Hs r e t (or_introl eq_refl) Hc) in Hn. discriminate. }
    destruct (post r s) as [a t]. simpl in H1, Hr.
    assert (H2 : Forall (fun r0 => is_received r0 = false)
                        (fst (posts rest t))).
    { apply IH. intros Hs request eid etype Hin Hc.
      unfold contains. destruct H1 as [Hd _]. rewrite Hd.
      apply (Hsettled Hs request eid etype); [right; exact Hin | exact Hc]. }
    destruct (post_all WEBHOOK_SECRET construct_event rest t) as [b u].
    simpl in *. constructor; assumption.
Qed.

(** X22.  Replaying a batch is a no-op: when a sequence of POSTs that has
    been handled is delivered again (in the same order, after anything
    else), the second pass inserts nothing and schedules nothing. *)
Theorem replay_changes_nothing (requests between : list Request) (s : server) :
  let s1 := snd (posts requests s) in
  let s2 := snd (posts between s1) in
  db (snd (posts requests s2)) = db s2 /\
  tasks (snd (posts requests s2)) = tasks s2 /\
  Forall (fun r => is_received r = false) (fst (posts requests s2)).
Proof.
  intros s1 s2.
  assert (Hsettled : truthy_str WEBHOOK_SECRET = true ->
                     forall request eid etype,
                       In request requests -> carrying request eid etype ->
                       contains eid s2 = true).
  { intros Hs request eid etype Hin Hc. unfold s2.
    apply posts_contains_mono. unfold s1.
    apply (posts_settle requests s Hs request eid etype Hin Hc). }
  destruct (posts_of_settled requests s2 Hsettled) as [Hd Ht].
  split; [exact Hd|]. split; [exact Ht|].
  apply posts_of_settled_answers. exact Hsettled.
Qed.

(** X23.  lines 83-89: a [GET /] between POSTs changes neither their
    answers nor the store nor the queue, whether or not the index file
    exists; its only effect is the "GET /" log line. *)
Theorem get_index_does_not_disturb
        (index_exists : bool) (before later : list Request) (s : server) :
  let s1 := snd (posts before s) in
  let s2 := snd (get_index index_exists s1) in
  s2 = after s1 [ELog INFO "GET /" []] /\
  fst (posts before s) ++ fst (posts later s2) = fst (posts (before ++ later) s) /\
  db (snd (posts later s2)) = db (snd (posts (before ++ later) s)) /\
  tasks (snd (posts later s2)) = tasks (snd (posts (before ++ later) s)).
Proof.
  intros s1 s2.
  assert (E : s2 = after s1 [ELog INFO "GET /" []]).
  { unfold s2, get_index, read_index, bind, logger_info, emit, ret, after.
    destruct index_exists; reflexivity. }
  split; [exact E|].
  rewrite post_all_app. simpl. fold s1.
  destruct (post_all_respects later s2 s1) as [E1 [E2 E3]].
  { rewrite E. apply same_store_after. }
  rewrite E1. auto.
Qed.

End SequentialComposition.

(* ------------------------------------------------------------------ *)
(** ** Further properties: admission and processing together *)

Section AdmissionThenProcessing.

Variable WEBHOOK_SECRET : option string.
Variable construct_event :
  payload_arg -> option string -> option string -> outcome Event.
Variable Event_retrieve : string -> outcome pyval.
Variable Customer_retrieve : pyval -> outcome pyval.

Abbreviation post := (post_callback WEBHOOK_SECRET construct_event).
Abbreviation carrying := (carries WEBHOOK_SECRET construct_event).
Abbreviation processing := (process_event_record Event_retrieve Customer_retrieve).

(** X24.  lines 53-60 and 129-138: processing is never retried.  After an
    admission, the scheduled task is the one for the admitted event; it
    returns whatever the remote calls do (also when the fetch fails) and
    leaves the record in the store, so a later delivery of the same event
    is answered as a duplicate and schedules nothing. *)
Theorem processing_failure_is_not_retried
        (request later : Request) (eid etype later_type : string) (s0 : server) :
  carrying request eid etype ->
  fst (post request s0) = received_response ->
  carrying later eid later_type ->
  let s1 := snd (post request s0) in
  let s2 := snd (processing eid etype s1) in
  tasks s1 = tasks s0 ++ [{| task_event_id := eid; task_event_type := etype |}] /\
  fst (processing eid etype s1) = Ret tt /\
  fst (post later s2) = duplicate_response /\
  db (snd (post later s2)) = db s1 /\
  tasks (snd (post later s2)) = tasks s1.
Proof.
  intros Hc Hr Hl s1 s2.
  destruct (post_received_inv _ _ _ _ _ _ Hc Hr) as [Hs Hnew].
  pose proof (post_callback_admit _ _ _ _ _ _ Hs Hc Hnew) as E1.
  assert (Hdb1 : db s1 = db s0 ++ [{| event_id := eid; type := etype |}])
    by (unfold s1; rewrite E1; reflexivity).
  destruct (quiet_process_event_record Event_retrieve Customer_retrieve eid etype s1)
    as [Hd2 Ht2].
  fold s2 in Hd2, Ht2.
  assert (Hseen : contains eid s2 = true).
  { unfold contains. rewrite Hd2.
    exact (contains_after_insert _ _ _ _ Hdb1). }
  pose proof (post_callback_duplicate _ _ _ _ _ _ Hs Hl Hseen) as E3.
  split; [unfold s1; rewrite E1; reflexivity|].
  split.
  - destruct (fetch_event_object Event_retrieve eid) as [obj|e] eqn:Hf.
    + destruct (process_after_fetch Event_retrieve Customer_retrieve eid etype obj s1 Hf)
        as (line & _ & E).
      rewrite E. reflexivity.
    + rewrite (process_fetch_failed _ _ _ etype _ s1 Hf). reflexivity.
  - rewrite E3. simpl. auto.
Qed.

End AdmissionThenProcessing.

(* ------------------------------------------------------------------ *)
(** ** Further properties of the event loop: linearizability *)

Section Linearization.

Variable WEBHOOK_SECRET : option string.
Variable construct_event :
  payload_arg -> option string -> option string -> outcome Event.

Abbreviation post := (post_callback WEBHOOK_SECRET construct_event).
Abbreviation posts := (post_all WEBHOOK_SECRET construct_event).
Abbreviation resuming := (resume WEBHOOK_SECRET construct_event).
Abbreviation stepping := (step_at WEBHOOK_SECRET construct_event).
Abbreviation running := (run_schedule WEBHOOK_SECRET construct_event).
Abbreviation recorded := (history WEBHOOK_SECRET construct_event).

Lemma step_at_none (i : nat) (cs : list coroutine) (s : server) :
  nth_error cs i = None -> stepping i cs s = (cs, s).
Proof.
  revert i. induction cs as [|c rest IH]; intros i H; simpl.
  - reflexivity.
  - destruct i as [|j]; [discriminate|]. simpl in H.
    rewrite (IH j H). reflexivity.
Qed.

Lemma step_at_some (i : nat) (cs : list coroutine) (s : server) (c : coroutine) :
  nth_error cs i = Some c ->
  snd (stepping i cs s) = snd (resuming c s) /\
  nth_error (fst (stepping i cs s)) i = Some (fst (resuming c s)).
Proof.
  revert i. induction cs as [|c0 rest IH]; intros i H.
  - destruct i; discriminate.
  - destruct i as [|j]; simpl in H |- *.
    + inversion H; subst. destruct (resuming c s). simpl. auto.
    + specialize (IH j H). destruct (stepping j rest s). simpl in *. exact IH.
Qed.

(** The second step of a coroutine is the handler itself, on the store
    and the queue of the moment. *)
Lemma resume_awaiting_is_post (request : Request) (s sq : server) :
  truthy_str WEBHOOK_SECRET = true ->
  same_store s sq ->
  fst (resuming (AwaitingBody request) s) = Finished (fst (post request sq)) /\
  same_store (snd (resuming (AwaitingBody request) s)) (snd (post request sq)).
Proof.
  intros Hs Hsame.
  set (m := (payload <- request_body request ;;
             payment_callback_resume WEBHOOK_SECRET construct_event request payload)).
  assert (Hm : respects m).
  { unfold m, request_body. repeat step_respects. apply respects_resume_body. }
  assert (Hpost : payment_callback WEBHOOK_SECRET construct_event request sq =
                  m (after sq [ELog INFO "POST /api/payment/callback" []])).
  { unfold payment_callback, payment_callback_enter.
    unfold bind at 1 2. unfold logger_info, emit. rewrite Hs. reflexivity. }
  unfold resume, post_callback. rewrite Hpost. fold m.
  destruct (Hm s (after sq [ELog INFO "POST /api/payment/callback" []]))
    as [E1 [E2 E3]].
  { destruct Hsame. split; assumption. }
  destruct (m s) as [r1 t1].
  destruct (m (after sq [ELog INFO "POST /api/payment/callback" []])) as [r2 t2].
  simpl in *. subst r2. repeat split; assumption.
Qed.

(** Whatever has been answered so far under a schedule, handling the
    answered requests one after the other, in the order of their answers,
    gives the same answers, the same store and the same queue. *)
Lemma run_schedule_linearizes (schedule : list nat) (cs : list coroutine)
      (s sq : server) :
  truthy_str WEBHOOK_SECRET = true ->
  same_store s sq ->
  fst (posts (map fst (recorded schedule cs s)) sq) = map snd (recorded schedule cs s) /\
  same_store (snd (running schedule cs s))
             (snd (posts (map fst (recorded schedule cs s)) sq)).
Proof.
  intros Hs. revert cs s sq.
  induction schedule as [|i later IH]; intros cs s sq Hsame; simpl.
  - auto.
  - destruct (nth_error cs i) as [c|] eqn:En.
    + destruct (step_at_some i cs s c En) as [Hsnd Hnth].
      destruct (stepping i cs s) as [cs' s'] eqn:Est. simpl in Hsnd, Hnth.
      unfold answered_at. rewrite En, Hnth.
      destruct c as [request|request|resp].
      * destruct (resume_created WEBHOOK_SECRET construct_event Hs request s)
          as (t & E & Hd & Ht).
        rewrite E in Hsnd |- *. simpl in Hsnd |- *. subst s'.
        apply IH. destruct Hsame. split; congruence.
      * destruct (resume_awaiting_is_post request s sq Hs Hsame) as [E1 E2].
        rewrite E1. rewrite <- Hsnd in E2.
        simpl. destruct (post request sq) as [a t]. simpl in E2 |- *.
        destruct (IH cs' s' t E2) as [H1 H2].
        destruct (post_all WEBHOOK_SECRET construct_event
                           (map fst (recorded later cs' s')) t) as [b u].
        simpl in *. subst b. auto.
      * simpl in Hsnd |- *. subst s'. apply IH. exact Hsame.
    + rewrite (step_at_none i cs s En). unfold answered_at. rewrite En.
      apply IH. exact Hsame.
Qed.

Lemma resume_keeps_request (request : Request) (c : coroutine) (s : server) :
  coroutine_of request c -> coroutine_of request (fst (resuming c s)).
Proof.
  destruct c as [r|r|resp]; simpl; intros H.
  - destruct (payment_callback_enter WEBHOOK_SECRET s) as [[u|e] s']; simpl; auto.
  - match goal with
    | |- context [let (x, y) := ?m in _] => destruct m
    end. simpl. exact I.
  - exact I.
Qed.

Lemma step_at_answered (i : nat) (requests : list Request) (cs : list coroutine)
      (s : server) :
  Forall2 coroutine_of requests cs ->
  Forall2 coroutine_of requests (fst (stepping i cs s)) /\
  Permutation (answered requests (fst (stepping i cs s)))
              (match answered_at i cs (fst (stepping i cs s)) with
               | Some a => a :: answered requests cs
               | None => answered requests cs
               end).
Proof.
  intros Hall. revert i. induction Hall as [|r c rs rest Hc Hrest IH]; intros i.
  - simpl. split; [constructor|]. unfold answered_at.
    destruct i; simpl; constructor.
  - destruct i as [|j].
    + cbn [step_at]. pose proof (resume_keeps_request r c s Hc) as Hk.
      destruct (resuming c s) as [c' s'] eqn:Er. cbn [fst] in *.
      split; [constructor; assumption|].
      unfold answered_at. cbn [nth_error].
      destruct c as [q|q|resp]; simpl in Hc; subst.
      * destruct c' as [q'|q'|resp']; simpl; apply Permutation_refl.
      * destruct c' as [q'|q'|resp']; simpl; apply Permutation_refl.
      * simpl in Er. inversion Er; subst. simpl. apply Permutation_refl.
    + cbn [step_at]. specialize (IH j).
      destruct (stepping j rest s) as [rest' s'] eqn:Est. cbn [fst] in *.
      destruct IH as [IH1 IH2].
      split; [constructor; assumption|].
      unfold answered_at in *. cbn [nth_error].
      destruct c as [q|q|resp]; simpl; try exact IH2.
      destruct (match nth_error rest j with
                | Some (Created request) | Some (AwaitingBody request) =>
                  match nth_error rest' j with
                  | Some (Finished resp0) => Some (request, resp0)
                  | _ => None
                  end
                | _ => None
                end) as [a|].
      * apply (perm_trans (perm_skip _ IH2)). apply perm_swap.
      * apply perm_skip. exact IH2.
Qed.

Lemma run_schedule_answered (schedule : list nat) (requests : list Request)
      (cs : list coroutine) (s : server) :
  Forall2 coroutine_of requests cs ->
  Permutation (answered requests (fst (running schedule cs s)))
              (recorded schedule cs s ++ answered requests cs).
Proof.
  revert cs s. induction schedule as [|i later IH]; intros cs s Hall; simpl.
  - apply Permutation_refl.
  - destruct (step_at_answered i requests cs s Hall) as [Hall' Hperm].
    destruct (stepping i cs s) as [cs' s']. cbn [fst] in *.
    specialize (IH cs' s' Hall').
    destruct (answered_at i cs cs') as [a|].
    + apply (perm_trans IH). simpl.
      apply (perm_trans (Permutation_app_head _ Hperm)).
      apply Permutation_sym. apply Permutation_middle.
    + apply (perm_trans IH). apply Permutation_app_head. exact Hperm.
Qed.

Lemma created_coroutines (requests : list Request) :
  Forall2 coroutine_of requests (map Created requests) /\
  answered requests (map Created requests) = [].
Proof.
  induction requests as [|r rest [IH1 IH2]]; simpl.
  - split; [constructor | reflexivity].
  - split; [constructor; [reflexivity | exact IH1] | exact IH2].
Qed.

(** X25.  The event loop is linearizable.  With the secret configured, for
    every set of concurrent requests and every schedule: the requests
    answered so far, each with the answer its client received, are those
    of the history (the order in which the loop answered them); and
    handling the history's requests one after the other from the initial
    state gives the same answers, the same store and the same queue. *)
Theorem concurrent_run_is_linearizable
        (requests : list Request) (schedule : list nat) (s0 : server) :
  truthy_str WEBHOOK_SECRET = true ->
  let cs := fst (running schedule (map Created requests) s0) in
  let s := snd (running schedule (map Created requests) s0) in
  let h := recorded schedule (map Created requests) s0 in
  Permutation (answered requests cs) h /\
  fst (posts (map fst h) s0) = map snd h /\
  db s = db (snd (posts (map fst h) s0)) /\
  tasks s = tasks (snd (posts (map fst h) s0)).
Proof.
  intros Hs cs s h.
  destruct (created_coroutines requests) as [Hall Hnone].
  pose proof (run_schedule_answered schedule requests (map Created requests) s0 Hall)
    as Hperm.
  rewrite Hnone, app_nil_r in Hperm.
  destruct (run_schedule_linearizes schedule (map Created requests) s0 s0 Hs
                                    (same_store_refl s0)) as [H1 [H2 H3]].
  repeat split; assumption.
Qed.

End Linearization.

(* ------------------------------------------------------------------ *)
(** ** Further properties of the event loop: the store under any schedule *)

Section LoopInvariants.

Variable WEBHOOK_SECRET : option string.
Variable construct_event :
  payload_arg -> option string -> option string -> outcome Event.

Abbreviation resuming := (resume WEBHOOK_SECRET construct_event).
Abbreviation stepping := (step_at WEBHOOK_SECRET construct_event).
Abbreviation running := (run_schedule WEBHOOK_SECRET construct_event).

(** What a state can become in one step of the loop: the same store and
    queue, or one record with a fresh id and its task more. *)
Definition grows_by_at_most_one (s s' : server) : Prop :=
  same_store s' s \/
  exists eid etype,
    contains eid s = false /\
    db s' = db s ++ [{| event_id := eid; type := etype |}] /\
    tasks s' = tasks s ++ [{| task_event_id := eid; task_event_type := etype |}].

Lemma resume_body_step (request : Request) (payload : list byte) (s : server) :
  grows_by_at_most_one
    s (snd (payment_callback_resume WEBHOOK_SECRET construct_event request payload s)).
Proof.
  unfold grows_by_at_most_one, same_store, contains.
  unfold payment_callback_resume, try_except, bind, ret, raise, lift, logger_info,
    logger_warning, logger_exception, db_contains, db_insert, add_task, emit.
  destruct (truthy_str (headers_get request "stripe-signature")); simpl; auto.
  destruct (verify WEBHOOK_SECRET construct_event payload
                   (headers_get request "stripe-signature")) as [ev|e]; simpl.
  - destruct ev as [[i|] [t|]]; simpl; auto.
    destruct (String.eqb i ""); simpl; auto.
    destruct (String.eqb t ""); simpl; auto.
    destruct (existsb (Query_event_id_eq i) (db s)) eqn:Hc; simpl; auto.
    right. exists i, t. auto.
  - destruct e; simpl; auto.
Qed.

Lemma resume_step (c : coroutine) (s : server) :
  grows_by_at_most_one s (snd (resuming c s)).
Proof.
  destruct c as [request|request|resp].
  - left. unfold resume, payment_callback_enter, bind, ret, raise, logger_info,
            logger_error, emit, respond.
    destruct (truthy_str WEBHOOK_SECRET); simpl; split; reflexivity.
  - unfold resume, request_body. unfold bind at 1 2. unfold emit, ret.
    match goal with
    | |- context [payment_callback_resume _ _ _ _ ?st] => set (s1 := st)
    end.
    pose proof (resume_body_step request (body request) s1) as H.
    destruct (payment_callback_resume WEBHOOK_SECRET construct_event request
                (body request) s1) as [r s2].
    unfold respond. simpl in *.
    destruct H as [[Hd Ht] | (e & t & Hn & Hd & Ht)].
    + left. split; simpl; assumption.
    + right. exists e, t. auto.
  - left. simpl. apply same_store_refl.
Qed.

Lemma step_at_step (i : nat) (cs : list coroutine) (s : server) :
  grows_by_at_most_one s (snd (stepping i cs s)).
Proof.
  revert i. induction cs as [|c rest IH]; intros i; simpl.
  - left. apply same_store_refl.
  - destruct i as [|j].
    + pose proof (resume_step c s) as H. destruct (resuming c s). exact H.
    + specialize (IH j). destruct (stepping j rest s). exact IH.
Qed.

(** X26.  Under every schedule, for any coroutines and any secret, the
    loop keeps the store's invariants: ids that were distinct stay
    distinct (never two records for one event id), a queue that mirrored
    the store still mirrors it, and the records that were in the store are
    still there, unchanged and in place. *)
Theorem schedule_keeps_store_invariants
        (schedule : list nat) (cs : list coroutine) (s : server) :
  (NoDup (map event_id (db s)) ->
   NoDup (map event_id (db (snd (running schedule cs s))))) /\
  (mirrored s -> mirrored (snd (running schedule cs s))) /\
  exists added, db (snd (running schedule cs s)) = db s ++ added.
Proof.
  revert cs s. induction schedule as [|i later IH]; intros cs s; simpl.
  - repeat split; auto. exists []. rewrite app_nil_r. reflexivity.
  - pose proof (step_at_step i cs s) as Hstep.
    destruct (stepping i cs s) as [cs' s']. simpl in Hstep.
    destruct (IH cs' s') as (Hnd & Hmir & added & Hadd).
    destruct Hstep as [[Hd Ht] | (e & t & Hn & Hd & Ht)].
    + split; [|split].
      * intros H. apply Hnd. rewrite Hd. exact H.
      * intros H. apply Hmir. unfold mirrored in *. rewrite Hd, Ht. exact H.
      * exists added. rewrite Hadd, Hd. reflexivity.
    + split; [|split].
      * intros H. apply Hnd. rewrite Hd, map_app. simpl.
        apply NoDup_rev in H. rewrite <- (rev_involutive (_ ++ _)).
        apply NoDup_rev. rewrite rev_app_distr. simpl.
        constructor; [|exact H].
        rewrite <- in_rev. intros Hin. apply contains_In in Hin. congruence.
      * intros H. apply Hmir. unfold mirrored in *.
        rewrite Hd, Ht, map_app, H. reflexivity.
      * eexists. rewrite Hadd, Hd, <- app_assoc. reflexivity.
Qed.

End LoopInvariants.

(* ------------------------------------------------------------------ *)
(** ** The further properties at concrete requests *)

Module MoreFixtures.

Definition badly_signed (b : list byte) : Request :=
  {| body := b; headers := [("stripe-signature", "t=1,v1=00000000")] |}.

Definition blank_signature (b : list byte) : Request :=
  {| body := b; headers := [("stripe-signature", "")] |}.

(** A verifier whose event has no type. *)
Definition stripe_untyped (p : payload_arg) (sig_header secret : option string)
  : outcome Event :=
  Ret {| ev_id := Some "evt_1"; ev_type := None |}.

(** A verifier that chokes on the payload. *)
Definition stripe_chokes (p : payload_arg) (sig_header secret : option string)
  : outcome Event :=
  Raise (OtherException "ValueError").

Definition customer_found (c : pyval) : outcome pyval :=
  Ret (PDict [("id", c); ("email", PStr "c@d.e")]).

Definition free_intent : list (string * pyval) :=
  [("id", PStr "pi_1"); ("amount_received", PInt 0); ("amount", PInt 500);
   ("currency", PStr "usd")].

Definition retrieve_intent (event_id : string) : outcome pyval :=
  Ret (PDict [("data", PDict [("object", PDict free_intent)])]).

Definition retrieve_bare (event_id : string) : outcome pyval :=
  Ret (PDict [("id", PStr event_id)]).

Definition busy_server : server :=
  {| db := []; tasks := []; trace := [ELog INFO "GET /" []] |}.

End MoreFixtures.

Import MoreFixtures.

Lemma invalid_signature_is_400_witness :
  fst (post_callback secret stripe_accepts (badly_signed []) empty_server)
  = error_response 400 "Invalid signature".
Proof.
  rewrite (invalid_signature_is_400 secret stripe_accepts (badly_signed [])
             empty_server); reflexivity.
Defined.

Lemma malformed_event_is_400_witness :
  fst (post_callback secret stripe_untyped (signed []) empty_server)
  = error_response 400 "Malformed event (missing id/type)".
Proof.
  rewrite (malformed_event_is_400 secret stripe_untyped (signed [])
             {| ev_id := Some "evt_1"; ev_type := None |} empty_server);
    reflexivity.
Defined.

Lemma unexpected_error_is_generic_500_witness :
  fst (post_callback secret stripe_chokes (signed []) empty_server)
  = error_response 500 "Webhook processing error".
Proof.
  rewrite (unexpected_error_is_generic_500 secret stripe_chokes (signed [])
             (OtherException "ValueError") empty_server); reflexivity.
Defined.

Lemma response_is_one_of_seven_witness :
  In (fst (post_callback secret stripe_accepts (signed []) empty_server))
     endpoint_responses.
Proof.
  apply (response_is_one_of_seven secret stripe_accepts (signed []) empty_server).
  intros p sig_header sec sc detail. unfold stripe_accepts.
  destruct sig_header as [sig|]; [|discriminate].
  destruct (String.eqb sig good_signature); [|discriminate].
  destruct p; discriminate.
Defined.

Lemma secret_check_is_truthiness_witness :
  fst (post_callback (Some "") stripe_accepts (signed []) empty_server)
  = error_response 500 "Webhook secret not configured".
Proof.
  rewrite (proj1 (secret_check_is_truthiness (Some "") stripe_accepts (signed [])
                                             empty_server));
    [reflexivity | right; reflexivity].
Defined.

Lemma empty_signature_is_missing_witness :
  fst (post_callback secret stripe_accepts (blank_signature []) empty_server)
  = error_response 400 "Missing stripe-signature header".
Proof.
  rewrite (proj1 (empty_signature_is_missing secret stripe_accepts
                                             (blank_signature []) empty_server
                                             eq_refl eq_refl)).
  reflexivity.
Defined.

Lemma unauthenticated_never_touches_store_witness :
  exists effects,
    snd (post_callback secret stripe_accepts (unsigned []) empty_server)
    = after empty_server effects /\
    existsb (fun e => is_store_read e || is_store_write e || is_add_task e) effects
    = false.
Proof.
  apply (unauthenticated_never_touches_store secret stripe_accepts (unsigned [])
                                             empty_server).
  intros eid etype (Hh & _). discriminate Hh.
Defined.

Lemma ascii_payload_verified_as_text_witness :
  verify secret stripe_wants_text ["{"%byte; "}"%byte] (Some good_signature)
  = stripe_wants_text (PText [123%N; 125%N]) (Some good_signature) secret.
Proof.
  apply (ascii_payload_verified_as_text secret stripe_wants_text
           ["{"%byte; "}"%byte] (Some good_signature)); reflexivity.
Defined.

Lemma extract_email_prefers_customer_email_witness :
  _extract_email_from_event_object customer_found
    (PDict [("customer", PStr "cus_1"); ("customer_email", PStr "a@b.c")])
    empty_server
  = (Ret (PStr "a@b.c"), empty_server).
Proof.
  apply (extract_email_prefers_customer_email customer_found
           [("customer", PStr "cus_1"); ("customer_email", PStr "a@b.c")]
           (PStr "a@b.c") empty_server); reflexivity.
Defined.

Lemma extract_email_uses_customer_details_witness :
  _extract_email_from_event_object customer_found
    (PDict [("customer_email", PStr "");
            ("customer_details", PDict [("email", PStr "x@y.z")])])
    empty_server
  = (Ret (PStr "x@y.z"), empty_server).
Proof.
  apply (extract_email_uses_customer_details customer_found
           [("customer_email", PStr "");
            ("customer_details", PDict [("email", PStr "x@y.z")])]
           [("email", PStr "x@y.z")] (PStr "x@y.z") empty_server); reflexivity.
Defined.

Lemma extract_email_falls_back_to_customer_witness :
  _extract_email_from_event_object customer_found
    (PDict [("customer", PStr "cus_1")]) empty_server
  = (Ret (PStr "c@d.e"), empty_server) /\
  _extract_email_from_event_object customer_fails
    (PDict [("customer", PStr "cus_1")]) empty_server
  = (Ret PNone, empty_server) /\
  _extract_email_from_event_object customer_found
    (PDict [("customer_details", PStr "x"); ("customer", PStr "cus_1")]) empty_server
  = (Ret PNone, empty_server).
Proof.
  split; [|split].
  - apply (proj1 (extract_email_falls_back_to_customer customer_found
                    [("customer", PStr "cus_1")] empty_server eq_refl));
      [left; reflexivity | reflexivity].
  - apply (proj1 (extract_email_falls_back_to_customer customer_fails
                    [("customer", PStr "cus_1")] empty_server eq_refl));
      [left; reflexivity | reflexivity].
  - apply (proj1 (proj2 (extract_email_falls_back_to_customer customer_found
                           [("customer_details", PStr "x"); ("customer", PStr "cus_1")]
                           empty_server eq_refl)));
      reflexivity.
Defined.

Lemma extract_email_of_non_mapping_witness :
  _extract_email_from_event_object customer_found (PStr "oops") empty_server
  = (Ret PNone, empty_server).
Proof.
  apply (extract_email_of_non_mapping customer_found (PStr "oops") empty_server).
  reflexivity.
Defined.

Lemma handler_fails_only_on_non_mapping_witness :
  dispatch_event_type customer_found "payment_intent.succeeded" (PList []) empty_server
  = (Raise AttributeError, empty_server).
Proof.
  apply (proj1 (handler_fails_only_on_non_mapping
                  customer_found "payment_intent.succeeded" (PList []) empty_server));
    reflexivity.
Defined.

Lemma checkout_email_never_blank_witness :
  process_event_record retrieve_ok customer_fails "evt_1"
                       "checkout.session.completed" empty_server =
  (Ret tt,
   after empty_server
         [ELog INFO "Processing event %s (%s)"
               [astr "evt_1"; astr "checkout.session.completed"];
          ELog INFO "✅ Checkout completed by %s | session=%s"
               [astr "a@b.c"; astr "cs_1"]]) /\
  process_event_record retrieve_intent customer_fails "evt_3"
                       "checkout.session.completed" empty_server =
  (Ret tt,
   after empty_server
         [ELog INFO "Processing event %s (%s)"
               [astr "evt_3"; astr "checkout.session.completed"];
          ELog INFO "✅ Checkout completed by %s | session=%s"
               [astr "unknown"; astr "pi_1"]]).
Proof.
  split.
  - destruct (checkout_email_never_blank retrieve_ok customer_fails "evt_1"
                [("id", PStr "cs_1"); ("customer_email", PStr "a@b.c")]
                empty_server eq_refl) as (v & E & _ & H).
    vm_compute in E. inversion E; subst v. exact H.
  - destruct (checkout_email_never_blank retrieve_intent customer_fails "evt_3"
                free_intent empty_server eq_refl) as (v & E & _ & H).
    vm_compute in E. inversion E; subst v. exact H.
Defined.

Lemma payment_amount_falls_back_witness :
  process_event_record retrieve_intent customer_fails "evt_3"
                       "payment_intent.succeeded" empty_server =
  (Ret tt,
   after empty_server
         [ELog INFO "Processing event %s (%s)"
               [astr "evt_3"; astr "payment_intent.succeeded"];
          ELog INFO "💸 Payment succeeded: %s %s | intent=%s"
               [AVal (PInt 500); AVal (PStr "usd"); AVal (PStr "pi_1")]]).
Proof.
  apply (payment_amount_falls_back retrieve_intent customer_fails "evt_3"
           free_intent empty_server).
  reflexivity.
Defined.

Lemma event_without_object_is_processed_witness :
  process_event_record retrieve_bare customer_fails "evt_4"
                       "checkout.session.completed" empty_server =
  (Ret tt,
   after empty_server
         [ELog INFO "Processing event %s (%s)"
               [astr "evt_4"; astr "checkout.session.completed"];
          ELog INFO "✅ Checkout completed by %s | session=%s"
               [astr "unknown"; AVal PNone]]).
Proof.
  apply (event_without_object_is_processed retrieve_bare customer_fails "evt_4"
           [("id", PStr "evt_4")] empty_server);
    [reflexivity | left; reflexivity].
Defined.

Lemma answer_depends_on_store_only_witness :
  fst (post_callback secret stripe_accepts (signed []) empty_server)
  = fst (post_callback secret stripe_accepts (signed []) busy_server).
Proof.
  apply (proj1 (answer_depends_on_store_only secret stripe_accepts (signed [])
                                             empty_server busy_server
                                             eq_refl eq_refl)).
Defined.

Lemma queue_mirrors_store_witness :
  mirrored (snd (post_all secret stripe_accepts
                          [signed []; unsigned []; signed ["p"%byte]] empty_server)).
Proof.
  apply (queue_mirrors_store secret stripe_accepts
           [signed []; unsigned []; signed ["p"%byte]] empty_server).
  reflexivity.
Defined.

Lemma processing_failure_is_not_retried_witness :
  let s1 := snd (post_callback secret stripe_accepts (signed []) empty_server) in
  let s2 := snd (process_event_record retrieve_fails customer_fails "evt_1"
                                      "checkout.session.completed" s1) in
  fst (post_callback secret stripe_accepts (signed []) s2) = duplicate_response /\
  db (snd (post_callback secret stripe_accepts (signed []) s2)) = db s1.
Proof.
  intros s1 s2.
  pose proof (processing_failure_is_not_retried
                secret stripe_accepts retrieve_fails customer_fails
                (signed []) (signed []) "evt_1" "checkout.session.completed"
                "checkout.session.completed" empty_server) as H.
  destruct H as (_ & _ & H3 & H4 & _);
    [unfold carries; repeat split | reflexivity | unfold carries; repeat split |].
  split; [exact H3 | exact H4].
Defined.

Lemma concurrent_run_is_linearizable_witness :
  let requests := [signed []; unsigned []; signed ["p"%byte]] in
  let schedule := [2; 0; 1; 2; 0; 1]%nat in
  let h := history secret stripe_accepts schedule (map Created requests)
                   empty_server in
  map fst h = [signed ["p"%byte]; signed []; unsigned []] /\
  fst (post_all secret stripe_accepts (map fst h) empty_server) = map snd h /\
  db (snd (run_schedule secret stripe_accepts schedule (map Created requests)
                        empty_server))
  = db (snd (post_all secret stripe_accepts (map fst h) empty_server)).
Proof.
  intros requests schedule h.
  split; [reflexivity|].
  destruct (concurrent_run_is_linearizable secret stripe_accepts requests schedule
                                           empty_server eq_refl)
    as (_ & H2 & H3 & _).
  split; [exact H2 | exact H3].
Defined.

Lemma schedule_keeps_store_invariants_witness :
  NoDup (map event_id
             (db (snd (run_schedule secret stripe_accepts [0; 1; 1; 0]%nat
                                    [Created (signed []); Created (signed ["p"%byte])]
                                    empty_server)))).
Proof.
  apply (proj1 (schedule_keeps_store_invariants
                  secret stripe_accepts [0; 1; 1; 0]%nat
                  [Created (signed []); Created (signed ["p"%byte])] empty_server)).
  constructor.
Defined.
